(** * One-time authentication tokens of the VRNO backend (api/app.py)

    A shallow embedding of the token functions of [api/app.py]:
    [generate_secure_token], [create_auth_token],
    [verify_and_consume_token], [cleanup_expired_tokens] and the
    cleanup worker, over an explicit model of what they touch: the
    [auth_tokens] table behind the Supabase client, the wall clock, the
    operating system's random source and the logger.  The module [Api]
    embeds the API key check, the call of the external API and routes
    that read from the store and fall back on the external API.

    Conventions.
    - An instant ([datetime.now()], the [expires_at] and [used_at]
      columns) is an integer number of microseconds; the ISO strings the
      code sends are compared by the store as instants, so the model
      compares the integers.  Python's bound on datetimes (years 1 to
      9999) is outside the model.
    - A Python function that may raise is a computation of the monad [M]:
      it takes the world and gives a result, [Ok] or [Raise], with the
      world it leaves behind; what was written before an exception stays
      written. *)

From Stdlib Require Import ZArith List String Ascii Bool Lia.
From Stdlib Require Import Strings.Byte DecimalString.
From Stdlib Require Import Floats.SpecFloat.
Import ListNotations.
Open Scope string_scope.
Open Scope list_scope.
Open Scope Z_scope.

(** ** Python values *)

(** [user_id] reaches [create_auth_token] as whatever the caller holds;
    the function stores [str(user_id)]. *)
Inductive PyVal : Type :=
| PyStr (s : string)
| PyInt (n : Z)
| PyBool (b : bool)
| PyNone.

Definition py_str (v : PyVal) : string :=
  match v with
  | PyStr s => s
  | PyInt n => NilZero.string_of_int (Z.to_int n)
  | PyBool true => "True"
  | PyBool false => "False"
  | PyNone => "None"
  end.

Inductive Exn : Type :=
| Exception (msg : string)
| APIError (msg : string).

Inductive Res (A : Type) : Type :=
| Ok (a : A)
| Raise (e : Exn).
Arguments Ok {A} a.
Arguments Raise {A} e.

(** ** The store *)

Module Store.

(** A row of [auth_tokens].  [used_at] is the nullable column: [None]
    is SQL NULL. *)
Record Row : Type := mkRow {
  token : string;
  user_id : string;
  expires_at : Z;
  purpose : string;
  used_at : option Z
}.

(** The filters the code chains on a query:
    [.eq('token', t)], [.eq('purpose', p)], [.gt('expires_at', t)],
    [.lt('expires_at', t)], [.is_('used_at', 'null')]. *)
Inductive Filter : Type :=
| eq_token (t : string)
| eq_purpose (p : string)
| gt_expires_at (t : Z)
| lt_expires_at (t : Z)
| is_used_at_null.

Definition holds (f : Filter) (r : Row) : bool :=
  match f with
  | eq_token t => String.eqb (token r) t
  | eq_purpose p => String.eqb (purpose r) p
  | gt_expires_at t => t <? expires_at r
  | lt_expires_at t => expires_at r <? t
  | is_used_at_null => match used_at r with None => true | Some _ => false end
  end.

Definition matches (fs : list Filter) (r : Row) : bool :=
  forallb (fun f => holds f r) fs.

Definition has_token (t : string) (rows : list Row) : bool :=
  existsb (fun r => String.eqb (token r) t) rows.

Definition mark_used (t : Z) (r : Row) : Row :=
  mkRow (token r) (user_id r) (expires_at r) (purpose r) (Some t).

End Store.
Import Store.

(** ** The world *)

(** The operating system's random source: [pool] is everything it will
    ever hand out, [cursor] how much it has handed out. *)
Record Rng : Type := mkRng {
  pool : nat -> byte;
  cursor : nat
}.

Inductive LogEntry : Type :=
| log_error (msg : string) (e : option Exn)
| log_info_cleaned_up (deleted_count : nat).

(** - [supabase]: whether the module-level client was initialised
      ([supabase is not None]);
    - [auth_tokens]: the table, in the order the store returns rows;
    - [schema_unique_token]: whether the table declares [token] unique.
      The table is created outside the repository, so the constraint is
      a parameter of the world;
    - [faults]: what the next calls of [.execute()] will do, [true]
      for a call the store refuses or that never reaches it; once the
      list is used up the store answers;
    - [clock]: what [datetime.now()] reads. *)
Record World : Type := mkWorld {
  supabase : bool;
  auth_tokens : list Row;
  schema_unique_token : bool;
  faults : list bool;
  clock : Z;
  rng : Rng;
  log : list LogEntry
}.

Definition set_auth_tokens (rows : list Row) (w : World) : World :=
  mkWorld (supabase w) rows (schema_unique_token w) (faults w) (clock w)
          (rng w) (log w).

Definition set_faults (fs : list bool) (w : World) : World :=
  mkWorld (supabase w) (auth_tokens w) (schema_unique_token w) fs (clock w)
          (rng w) (log w).

Definition set_rng (g : Rng) (w : World) : World :=
  mkWorld (supabase w) (auth_tokens w) (schema_unique_token w) (faults w)
          (clock w) g (log w).

Definition add_log (l : LogEntry) (w : World) : World :=
  mkWorld (supabase w) (auth_tokens w) (schema_unique_token w) (faults w)
          (clock w) (rng w) (log w ++ [l]).

(** Time passing between two calls. *)
Definition elapse (d : Z) (w : World) : World :=
  mkWorld (supabase w) (auth_tokens w) (schema_unique_token w) (faults w)
          (clock w + d) (rng w) (log w).

(** ** Computations *)

Definition M (A : Type) : Type := World -> Res A * World.

Definition ret {A} (a : A) : M A := fun w => (Ok a, w).

Definition bind {A B} (m : M A) (k : A -> M B) : M B :=
  fun w =>
    match m w with
    | (Ok a, w') => k a w'
    | (Raise e, w') => (Raise e, w')
    end.

Definition raise {A} (e : Exn) : M A := fun w => (Raise e, w).

(** [try: body except Exception as e: handler e]. *)
Definition try_except {A} (body : M A) (handler : Exn -> M A) : M A :=
  fun w =>
    match body w with
    | (Ok a, w') => (Ok a, w')
    | (Raise e, w') => handler e w'
    end.

Notation "x <- m ;; k" := (bind m (fun x => k))
  (at level 61, m at next level, right associativity).
Notation "m ;;; k" := (bind m (fun _ => k))
  (at level 61, right associativity).

Definition logger (l : LogEntry) : M unit := fun w => (Ok tt, add_log l w).

Definition datetime_now : M Z := fun w => (Ok (clock w), w).

(** [os.urandom(n)]: the next [n] bytes of the pool. *)
Definition urandom (n : nat) : M (list byte) :=
  fun w =>
    let g := rng w in
    (Ok (map (pool g) (seq (cursor g) n)),
     set_rng (mkRng (pool g) (cursor g + n)%nat) w).

(** ** Store operations, as the client's [.execute()] runs them *)

(** Every [.execute()] first meets the network and the store: the head
    of [faults] says whether this one fails. *)
Definition reach_store : M unit :=
  fun w =>
    match faults w with
    | [] => (Ok tt, w)
    | false :: fs => (Ok tt, set_faults fs w)
    | true :: fs => (Raise (APIError "store unavailable"), set_faults fs w)
    end.

(** [table('auth_tokens').insert(row).execute()]: the inserted rows are
    the result's [data].  The column [used_at] is not given and is NULL. *)
Definition insert (r : Row) : M (list Row) :=
  reach_store ;;;
  fun w =>
    if schema_unique_token w && has_token (token r) (auth_tokens w)
    then (Raise (APIError "duplicate key value"), w)
    else (Ok [r], set_auth_tokens (auth_tokens w ++ [r]) w).

(** [table('auth_tokens').select('user_id')...execute()]. *)
Definition select_user_id (fs : list Filter) : M (list string) :=
  reach_store ;;;
  fun w => (Ok (map user_id (filter (matches fs) (auth_tokens w))), w).

(** [table('auth_tokens').update({'used_at': t})...execute()]. *)
Definition update_used_at (t : Z) (fs : list Filter) : M (list Row) :=
  reach_store ;;;
  fun w =>
    let hit := filter (matches fs) (auth_tokens w) in
    (Ok (map (mark_used t) hit),
     set_auth_tokens
       (map (fun r => if matches fs r then mark_used t r else r)
            (auth_tokens w)) w).

(** [table('auth_tokens').delete()...execute()]: the deleted rows are
    the result's [data]. *)
Definition delete (fs : list Filter) : M (list Row) :=
  reach_store ;;;
  fun w =>
    (Ok (filter (matches fs) (auth_tokens w)),
     set_auth_tokens
       (filter (fun r => negb (matches fs r)) (auth_tokens w)) w).

(** ** The token generator *)

Definition hex_digit (n : N) : ascii :=
  match n with
  | 0 => "0" | 1 => "1" | 2 => "2" | 3 => "3" | 4 => "4" | 5 => "5"
  | 6 => "6" | 7 => "7" | 8 => "8" | 9 => "9" | 10 => "a" | 11 => "b"
  | 12 => "c" | 13 => "d" | 14 => "e" | _ => "f"
  end%N%char.

Definition hex_value (c : ascii) : option N :=
  let n := N_of_ascii c in
  if (48 <=? n)%N && (n <=? 57)%N then Some (n - 48)%N
  else if (97 <=? n)%N && (n <=? 102)%N then Some (n - 87)%N
  else None.

(** [bytes.hex()]: two lower-case digits a byte, high nibble first. *)
Fixpoint hexlify (bs : list byte) : string :=
  match bs with
  | [] => EmptyString
  | b :: bs' =>
      let n := Byte.to_N b in
      String (hex_digit (N.shiftr n 4))
        (String (hex_digit (N.land n 15)) (hexlify bs'))
  end.

(** The inverse of [hexlify], [bytes.fromhex]; [None] where Python
    raises [ValueError]. *)
Fixpoint unhexlify (s : string) : option (list byte) :=
  match s with
  | EmptyString => Some []
  | String _ EmptyString => None
  | String hi (String lo s') =>
      match hex_value hi, hex_value lo, unhexlify s' with
      | Some h, Some l, Some bs =>
          match Byte.of_N (16 * h + l) with
          | Some b => Some (b :: bs)
          | None => None
          end
      | _, _, _ => None
      end
  end.

(** [secrets.token_hex(nbytes)] is [token_bytes(nbytes).hex()], and
    [token_bytes] reads the operating system's random source. *)
Definition token_hex (nbytes : nat) : M string :=
  bs <- urandom nbytes ;; ret (hexlify bs).

Definition generate_secure_token : M string := token_hex 32.

(** ** The token functions *)

Definition read_supabase : M bool := fun w => (Ok (supabase w), w).

(** The client or [None]: [true] stands for the client. *)
Definition get_supabase_client : M bool :=
  client <- read_supabase ;;
  if negb client
  then logger (log_error "Supabase client not initialized" None) ;;; ret false
  else ret client.

(** [timedelta(minutes=m)], in microseconds. *)
Definition timedelta_minutes (m : Z) : Z := m * 60000000.

(** [create_auth_token(user_id, purpose, expires_in_minutes=15)]: the
    token, or [None].  An omitted third argument is [None] here. *)
Definition create_auth_token (user_id : PyVal) (purpose : string)
    (expires_in_minutes : option Z) : M (option string) :=
  let expires_in_minutes :=
    match expires_in_minutes with Some m => m | None => 15 end in
  client <- get_supabase_client ;;
  if negb client then raise (Exception "Supabase client not available")
  else
    token <- generate_secure_token ;;
    now <- datetime_now ;;
    let expires_at := now + timedelta_minutes expires_in_minutes in
    try_except
      (data <- insert (mkRow token (py_str user_id) expires_at purpose None) ;;
       match data with
       | _ :: _ => ret (Some token)
       | [] => ret None
       end)
      (fun e =>
         logger (log_error "Error creating auth token" (Some e)) ;;;
         ret None).

(** What [verify_and_consume_token] returns: [Valid u] is
    [{"valid": True, "userId": u}] and [Invalid] is [{"valid": False}]. *)
Inductive VerifyResult : Type :=
| Valid (userId : string)
| Invalid.

Definition valid_unused (token purpose : string) (current_time : Z)
  : list Filter :=
  [eq_token token; eq_purpose purpose; gt_expires_at current_time;
   is_used_at_null].

Definition verify_and_consume_token (token purpose : string)
  : M VerifyResult :=
  client <- get_supabase_client ;;
  if negb client then ret Invalid
  else
    try_except
      (current_time <- datetime_now ;;
       data <- select_user_id (valid_unused token purpose current_time) ;;
       match data with
       | user_id :: _ =>
           update_used_at current_time [eq_token token] ;;;
           ret (Valid user_id)
       | [] => ret Invalid
       end)
      (fun e =>
         logger (log_error "Error verifying token" (Some e)) ;;;
         ret Invalid).

Definition cleanup_expired_tokens : M unit :=
  client <- get_supabase_client ;;
  if negb client then ret tt
  else
    try_except
      (current_time <- datetime_now ;;
       data <- delete [lt_expires_at current_time] ;;
       logger (log_info_cleaned_up (List.length data)))
      (fun e =>
         logger (log_error "Error cleaning up expired tokens" (Some e))).

(** [time.sleep(seconds)]. *)
Definition time_sleep (seconds : Z) : M unit :=
  fun w => (Ok tt, elapse (seconds * 1000000) w).

(** The first [iterations] rounds of the loop of [cleanup_worker]. *)
Fixpoint cleanup_worker (iterations : nat) : M unit :=
  match iterations with
  | O => ret tt
  | S n =>
      time_sleep (6 * 60 * 60) ;;;
      cleanup_expired_tokens ;;;
      cleanup_worker n
  end.

(** ** Concurrent verification

    Requests are served by threads and by several server processes
    against the one store.  A call of [verify_and_consume_token] talks
    to the store twice, so another call can run between its [select]
    and its [update].  A call in flight is where it stands in the
    function's body. *)

Inductive Pc : Type :=
| at_entry
| at_update (current_time : Z) (user_id : string)
| returned (r : VerifyResult).

Record Call : Type := mkCall {
  call_token : string;
  call_purpose : string;
  pc : Pc
}.

(** From the entry up to the answer of [select]. *)
Definition verify_upto_select (token purpose : string) : M Pc :=
  client <- get_supabase_client ;;
  if negb client then ret (returned Invalid)
  else
    try_except
      (current_time <- datetime_now ;;
       data <- select_user_id (valid_unused token purpose current_time) ;;
       match data with
       | user_id :: _ => ret (at_update current_time user_id)
       | [] => ret (returned Invalid)
       end)
      (fun e =>
         logger (log_error "Error verifying token" (Some e)) ;;;
         ret (returned Invalid)).

(** From the [update] to the return. *)
Definition verify_from_update (token : string) (current_time : Z)
    (user_id : string) : M Pc :=
  try_except
    (update_used_at current_time [eq_token token] ;;;
     ret (returned (Valid user_id)))
    (fun e =>
       logger (log_error "Error verifying token" (Some e)) ;;;
       ret (returned Invalid)).

Definition step_call (c : Call) (w : World) : Call * World :=
  let next :=
    match pc c with
    | at_entry => verify_upto_select (call_token c) (call_purpose c) w
    | at_update t u => verify_from_update (call_token c) t u w
    | returned r => (Ok (returned r), w)
    end in
  match next with
  | (Ok p, w') => (mkCall (call_token c) (call_purpose c) p, w')
  | (Raise _, w') => (c, w')
  end.

Fixpoint step_nth (i : nat) (cs : list Call) (w : World)
  : list Call * World :=
  match cs, i with
  | [], _ => ([], w)
  | c :: cs', O => let (c', w') := step_call c w in (c' :: cs', w')
  | c :: cs', S j => let (cs'', w') := step_nth j cs' w in (c :: cs'', w')
  end.

(** A schedule names, step after step, the call that moves. *)
Fixpoint run (schedule : list nat) (cs : list Call) (w : World)
  : list Call * World :=
  match schedule with
  | [] => (cs, w)
  | i :: rest => let (cs', w') := step_nth i cs w in run rest cs' w'
  end.

Definition succeeded (c : Call) : bool :=
  match pc c with
  | returned (Valid _) => true
  | _ => false
  end.

Definition finished (c : Call) : bool :=
  match pc c with
  | returned _ => true
  | _ => false
  end.

(** ** The routes and the helpers around them

    The routes read: they ask the store, or the external API, and shape
    the answer.  What the store and the external API answer is given by
    the environment; what a route does with it is the code. *)

Module Api.

#[local] Open Scope string_scope.

(** A JSON value as Python holds it.  A [float] is kept as its IEEE
    value; a [dict] is the list of its items, in order. *)
#[local] Unset Elimination Schemes.
Inductive Json : Type :=
| JNull
| JBool (b : bool)
| JInt (n : Z)
| JFloat (f : spec_float)
| JStr (s : string)
| JList (l : list Json)
| JDict (d : list (string * Json)).
#[local] Set Elimination Schemes.

Definition Dict : Type := list (string * Json).

(** [bool(j)]: Python's truth of a value. *)
Definition truthy (j : Json) : bool :=
  match j with
  | JNull => false
  | JBool b => b
  | JInt n => negb (n =? 0)%Z
  | JFloat (S754_zero _) => false
  | JFloat _ => true
  | JStr s => negb (String.eqb s "")
  | JList [] => false
  | JList _ => true
  | JDict [] => false
  | JDict _ => true
  end.

(** [d.get(k)]. *)
Fixpoint dict_get (k : string) (d : Dict) : option Json :=
  match d with
  | [] => None
  | (k', v) :: d' => if String.eqb k' k then Some v else dict_get k d'
  end.

(** [d.get(k, default)]. *)
Definition dict_get_default (k : string) (default : Json) (d : Dict) : Json :=
  match dict_get k d with
  | Some v => v
  | None => default
  end.

(** [d[k] = v] on the headers of a request, whose values are strings or
    [None]. *)
Fixpoint headers_set (k : string) (v : option string)
    (d : list (string * option string)) : list (string * option string) :=
  match d with
  | [] => [(k, v)]
  | (k', v') :: d' =>
      if String.eqb k' k then (k, v) :: d' else (k', v') :: headers_set k v d'
  end.

Fixpoint headers_get (k : string) (d : list (string * option string))
  : option (option string) :=
  match d with
  | [] => None
  | (k', v) :: d' => if String.eqb k' k then Some v else headers_get k d'
  end.

(** What can be raised in a route. *)
Inductive Err : Type :=
| RequestException (msg : string)
| HTTPError (status : Z) (url : string)
| JSONDecodeError
| ValueError (msg : string)
| KeyError (key : string)
| StoreError (msg : string)
| PyException (msg : string).

(** A query as the client builds it: the table, the [select], and the
    calls chained on it. *)
Inductive Clause : Type :=
| c_eq (column : string) (v : Json)
| c_gt (column : string) (v : Json)
| c_order (column : string) (desc : bool)
| c_limit (n : nat).

Record Query : Type := mkQuery {
  q_table : string;
  q_select : string;
  q_clauses : list Clause
}.

(** What [.execute()] does: the [data] of the result, or an error. *)
Inductive Answer : Type :=
| data (rows : list Dict)
| refused (msg : string).

(** A call of [requests.get], [post], [put] or [delete]. *)
Record HttpRequest : Type := mkHttpRequest {
  h_method : string;
  h_url : string;
  h_headers : list (string * option string);
  h_json : option Json;
  h_timeout : Z
}.

(** What the call does: it fails before a response is there (no
    connection, time-out), or a response comes with its status and its
    body, [None] for a body that is not JSON. *)
Inductive HttpAnswer : Type :=
| http_fails (msg : string)
| http_response (status : Z) (body : option Json).

(** - [supabase]: whether the module-level client is there;
    - [VRNO_API_KEY], [EXTERNAL_API_URL]: the module's settings, the
      first [None] when the variable is not set;
    - [store], [external]: what the store and the external API answer;
    - [json_error_is_request_exception]: whether the installed
      [requests] raises, for a body that is not JSON, an error that is a
      [RequestException] (it does from 2.27 on);
    - [now_isoformat]: [datetime.now().isoformat()]. *)
Record Env : Type := mkEnv {
  supabase : bool;
  VRNO_API_KEY : option string;
  EXTERNAL_API_URL : string;
  store : Query -> Answer;
  external : HttpRequest -> HttpAnswer;
  json_error_is_request_exception : bool;
  now_isoformat : string
}.

Inductive Level : Type := INFO | WARNING | ERROR.

(** What is formatted at the end of a log line. *)
Inductive Detail : Type :=
| d_none
| d_err (e : Err)
| d_err_100 (e : Err)
| d_json (j : Json).

(** A log line: its text, and the value formatted after it. *)
Record LogLine : Type := mkLogLine {
  level : Level;
  text : string;
  detail : Detail
}.

(** What a route has done besides answering. *)
Record Trace : Type := mkTrace {
  logged : list LogLine;
  queried : list Query;
  requested : list HttpRequest
}.

Definition no_trace : Trace := mkTrace [] [] [].

Inductive Outcome (A : Type) : Type :=
| Done (a : A)
| Raised (e : Err).
Arguments Done {A} a.
Arguments Raised {A} e.

Definition H (A : Type) : Type := Env -> Trace -> Outcome A * Trace.

Definition pure {A} (a : A) : H A := fun _ tr => (Done a, tr).

Definition throw {A} (e : Err) : H A := fun _ tr => (Raised e, tr).

Definition then_ {A B} (m : H A) (k : A -> H B) : H B :=
  fun env tr =>
    match m env tr with
    | (Done a, tr') => k a env tr'
    | (Raised e, tr') => (Raised e, tr')
    end.

(** [try: body except <class> as e: handler e], for the errors that
    [caught] takes. *)
Definition try_catch {A} (body : H A) (caught : Env -> Err -> bool)
    (handler : Err -> H A) : H A :=
  fun env tr =>
    match body env tr with
    | (Done a, tr') => (Done a, tr')
    | (Raised e, tr') =>
        if caught env e then handler e env tr' else (Raised e, tr')
    end.

(** [try: body except <class 1>: handler1 except <class 2> as e:
    handler2 e]: the first clause that takes the error handles it, and
    what a handler raises is not handled here. *)
Definition try_catch2 {A} (body : H A)
    (caught1 : Env -> Err -> bool) (handler1 : Err -> H A)
    (caught2 : Env -> Err -> bool) (handler2 : Err -> H A) : H A :=
  fun env tr =>
    match body env tr with
    | (Done a, tr') => (Done a, tr')
    | (Raised e, tr') =>
        if caught1 env e then handler1 e env tr'
        else if caught2 env e then handler2 e env tr'
        else (Raised e, tr')
    end.

Notation "x <~ m ;; k" := (then_ m (fun x => k))
  (at level 61, m at next level, right associativity).
Notation "m ~;; k" := (then_ m (fun _ => k))
  (at level 61, right associativity).

Definition ask {A} (f : Env -> A) : H A := fun env tr => (Done (f env), tr).

Definition log_line (l : Level) (t : string) (d : Detail) : H unit :=
  fun _ tr =>
    (Done tt, mkTrace (logged tr ++ [mkLogLine l t d]) (queried tr) (requested tr)).

(** [except Exception]. *)
Definition any_exception (_ : Env) (_ : Err) : bool := true.

(** [except requests.exceptions.RequestException]. *)
Definition request_exception (env : Env) (e : Err) : bool :=
  match e with
  | RequestException _ => true
  | HTTPError _ _ => true
  | JSONDecodeError => json_error_is_request_exception env
  | _ => false
  end.

(** [client.table(t).select(s)...execute()], giving [result.data]. *)
Definition execute (q : Query) : H (list Dict) :=
  fun env tr =>
    let tr' := mkTrace (logged tr) (queried tr ++ [q]) (requested tr) in
    match store env q with
    | data rows => (Done rows, tr')
    | refused msg => (Raised (StoreError msg), tr')
    end.

(** [record[k]]. *)
Definition item (k : string) (d : Dict) : H Json :=
  match dict_get k d with
  | Some v => pure v
  | None => throw (KeyError k)
  end.

(** [len(l)], as it is formatted in a log line. *)
Definition show_len {A} (l : list A) : string :=
  NilZero.string_of_uint (Nat.to_uint (List.length l)).

Definition get_supabase_client : H bool :=
  client <~ ask supabase ;;
  if negb client
  then log_line ERROR "Supabase client not initialized" d_none ~;; pure false
  else pure client.

(** *** The API key *)

(** [a or b] on what [headers.get] gives. *)
Definition py_or (a b : option string) : option string :=
  match a with
  | Some "" => b
  | Some s => Some s
  | None => b
  end.

Definition key_truthy (k : option string) : bool :=
  match k with
  | Some "" => false
  | Some _ => true
  | None => false
  end.

Definition option_string_eqb (a b : option string) : bool :=
  match a, b with
  | Some x, Some y => String.eqb x y
  | None, None => true
  | _, _ => false
  end.

Definition show_bool (b : bool) : string := if b then "True" else "False".

(** [verify_vrno_api_key()]; [headers] is [request.headers.get]. *)
Definition verify_vrno_api_key (headers : string -> option string) : H bool :=
  key <~ ask VRNO_API_KEY ;;
  let api_key := py_or (headers "vrno-api-key") (headers "x-api-key") in
  let is_valid := option_string_eqb api_key key in
  log_line INFO
    ("VRNO API Key verification: { providedKey: '"
     ++ (match api_key with
         | Some s => if key_truthy api_key then substring 0 10 s else "None"
         | None => "None"
         end)
     ++ "...', expectedKeySet: '"
     ++ (if key_truthy key then "SET" else "NOT_SET")
     ++ "', match: " ++ show_bool is_valid ++ " }")
    d_none ~;;
  pure is_valid.

(** *** The external API *)

(** The call of [requests] that [method] selects; [None] for a method
    that is none of the four. *)
Definition request_for (method url : string) (body : option Json)
    (headers : list (string * option string)) : option HttpRequest :=
  if String.eqb method "GET" then Some (mkHttpRequest "GET" url headers None 30)
  else if String.eqb method "POST"
       then Some (mkHttpRequest "POST" url headers body 30)
  else if String.eqb method "PUT"
       then Some (mkHttpRequest "PUT" url headers body 30)
  else if String.eqb method "DELETE"
       then Some (mkHttpRequest "DELETE" url headers None 30)
  else None.

(** [requests.<method>(...)], then [raise_for_status()], then
    [json()]. *)
Definition send (req : HttpRequest) : H Json :=
  fun env tr =>
    let tr' := mkTrace (logged tr) (queried tr) (requested tr ++ [req]) in
    match external env req with
    | http_fails msg => (Raised (RequestException msg), tr')
    | http_response status body =>
        if ((400 <=? status) && (status <? 600))%Z
        then (Raised (HTTPError status (h_url req)), tr')
        else match body with
             | Some j => (Done j, tr')
             | None => (Raised JSONDecodeError, tr')
             end
    end.

(** [make_external_api_request(endpoint, method='GET', data=None,
    headers=None)]; the headers are [[]] when none are given. *)
Definition make_external_api_request (endpoint method : string)
    (body : option Json) (headers : list (string * option string)) : H Json :=
  key <~ ask VRNO_API_KEY ;;
  let headers := headers_set "vrno-api-key" key headers in
  base <~ ask EXTERNAL_API_URL ;;
  let url := base ++ endpoint in
  try_catch
    (match request_for method url body headers with
     | Some req => send req
     | None => throw (ValueError ("Unsupported HTTP method: " ++ method))
     end)
    request_exception
    (fun e =>
       log_line ERROR "External API request failed: " (d_err e) ~;;
       throw e).

(** A call with the defaults, as the routes make it. *)
Definition external_get (endpoint : string) : H Json :=
  make_external_api_request endpoint "GET" None [].

(** *** The routes *)

(** What a route returns: [jsonify(body)] and the status. *)
Record Response : Type := mkResponse {
  body : Json;
  status : Z
}.

Definition jsonify (j : Json) : Response := mkResponse j 200.

Definition maintenance_body (mode : bool) (timestamp : string) : Json :=
  JDict [("maintenance_mode", JBool mode); ("timestamp", JStr timestamp)].

Definition json_is_str (j : Json) (s : string) : bool :=
  match j with
  | JStr s' => String.eqb s' s
  | _ => false
  end.

Definition maintenance_query : Query :=
  mkQuery "admin_configs" "config_value" [c_eq "config_key" (JStr "maintenance_mode")].

Definition get_maintenance_status : H Response :=
  client <~ get_supabase_client ;;
  if negb client
  then now <~ ask now_isoformat ;; pure (mkResponse (maintenance_body false now) 500)
  else
    try_catch
      (rows <~ execute maintenance_query ;;
       maintenance_mode <~
         match rows with
         | r :: _ => v <~ item "config_value" r ;; pure (json_is_str v "true")
         | [] => pure false
         end ;;
       now <~ ask now_isoformat ;;
       pure (jsonify (maintenance_body maintenance_mode now)))
      any_exception
      (fun e =>
         log_line ERROR "Error checking maintenance status: " (d_err e) ~;;
         now <~ ask now_isoformat ;;
         pure (mkResponse (maintenance_body false now) 500)).

Definition users_by_name (username : string) : Query :=
  mkQuery "users" "id" [c_eq "username" (JStr username)].

Definition balance_of (user_id : Json) : Query :=
  mkQuery "token_balances" "balance" [c_eq "user_id" user_id].

Definition balance_body (balance user_id : Json) (username : string) : Json :=
  JDict [("balance", balance); ("user_id", user_id); ("username", JStr username)].

Definition failed_to_fetch_balance : Response :=
  mkResponse (JDict [("error", JStr "Failed to fetch balance")]) 500.

(** The body the three balance routes share, from the test of
    [supabase] to the fall back on the external API; [fetched] is the
    start of the route's log line. *)
Definition balance_from_supabase_or_external (fetched username : string)
  : H Response :=
  sb <~ ask supabase ;;
  found <~
    (if sb
     then
       users <~ execute (users_by_name username) ;;
       match users with
       | u :: _ =>
           user_id <~ item "id" u ;;
           balances <~ execute (balance_of user_id) ;;
           match balances with
           | b :: _ =>
               balance <~ item "balance" b ;;
               balance' <~ item "balance" b ;;
               log_line INFO (fetched ++ username ++ " from Supabase: ")
                        (d_json balance') ~;;
               pure (Some (jsonify (balance_body balance user_id username)))
           | [] => pure None
           end
       | [] => pure None
       end
     else pure None) ;;
  match found with
  | Some response => pure response
  | None =>
      balance_data <~ external_get ("/api/user/balance/" ++ username) ;;
      pure (jsonify balance_data)
  end.

Definition get_user_balance (username : string) : H Response :=
  try_catch
    (balance_from_supabase_or_external "Fetched balance for " username)
    any_exception
    (fun e =>
       log_line ERROR ("Error fetching balance for " ++ username ++ ": ") (d_err e) ~;;
       pure failed_to_fetch_balance).

Definition get_user_balance_public (username : string) : H Response :=
  try_catch
    (balance_from_supabase_or_external "Fetched balance for " username)
    any_exception
    (fun e =>
       log_line ERROR ("Error fetching balance for " ++ username ++ ": ") (d_err e) ~;;
       pure failed_to_fetch_balance).

Definition get_secure_user_balance (username : string) : H Response :=
  try_catch
    (log_line INFO
       ("Secure balance request for user: " ++ username
        ++ " (auth bypassed for testing)") d_none ~;;
     balance_from_supabase_or_external "Fetched secure balance for " username)
    any_exception
    (fun e =>
       log_line ERROR ("Error fetching secure balance for " ++ username ++ ": ")
                (d_err e) ~;;
       pure failed_to_fetch_balance).

Definition assets_of (user_id : Json) : Query :=
  mkQuery "user_assets"
    "collectible_id as id, quantity, current_price, user_price, updated_at"
    [c_eq "user_id" user_id; c_gt "quantity" (JInt 0); c_order "updated_at" true].

Definition get_user_assets (username : string) : H Response :=
  try_catch
    (conn <~ get_supabase_client ;;
     if negb conn then pure (mkResponse (JList []) 500)
     else
       users <~ execute (users_by_name username) ;;
       match users with
       | [] => pure (mkResponse (JList []) 404)
       | u :: _ =>
           user_id <~ item "id" u ;;
           log_line INFO "Debug: Database user ID from users table: "
                    (d_json user_id) ~;;
           assets <~ execute (assets_of user_id) ;;
           pure (jsonify (JList (map JDict assets)))
       end)
    any_exception
    (fun e =>
       log_line ERROR ("Error fetching assets for " ++ username ++ ": ") (d_err e) ~;;
       pure (mkResponse (JList []) 500)).

Definition collectible_by_id (collectible_id : string) : Query :=
  mkQuery "collectibles" "*" [c_eq "id" (JStr collectible_id)].

Definition error_body (msg : string) : Json := JDict [("error", JStr msg)].

Definition get_secure_collectible (collectible_id : string) : H Response :=
  try_catch2
    (collectible_data <~ external_get ("/api/collectible/" ++ collectible_id) ;;
     pure (jsonify collectible_data))
    request_exception
    (fun _ =>
       try_catch
         (conn <~ get_supabase_client ;;
          found <~
            (if conn
             then
               rows <~ execute (collectible_by_id collectible_id) ;;
               match rows with
               | r :: _ => pure (Some (jsonify (JDict r)))
               | [] => pure None
               end
             else pure None) ;;
          match found with
          | Some response => pure response
          | None => pure (mkResponse (error_body "Collectible not found") 404)
          end)
         any_exception
         (fun e =>
            log_line ERROR
              ("Database error fetching collectible " ++ collectible_id ++ ": ")
              (d_err e) ~;;
            pure (mkResponse (error_body "Failed to fetch collectible") 500)))
    any_exception
    (fun e =>
       log_line ERROR ("Error fetching collectible " ++ collectible_id ++ ": ")
                (d_err e) ~;;
       pure (mkResponse (error_body "Failed to fetch collectible") 500)).

Definition collectibles_query : Query := mkQuery "collectibles" "*" [].

Definition get_collectibles : H Response :=
  try_catch
    (sb <~ ask supabase ;;
     if sb
     then
       collectibles <~ execute collectibles_query ;;
       log_line INFO
         ("Fetched " ++ show_len collectibles ++ " collectibles from Supabase")
         d_none ~;;
       pure (jsonify (JList (map JDict collectibles)))
     else
       log_line WARNING "Supabase client not available, using external API" d_none ~;;
       throw (PyException "Supabase not configured"))
    any_exception
    (fun e =>
       log_line ERROR "Error fetching collectibles from Supabase: " (d_err e) ~;;
       try_catch
         (collectibles_data <~ external_get "/api/collectibles" ;;
          pure (jsonify collectibles_data))
         any_exception
         (fun api_error =>
            log_line ERROR "External API also failed: " (d_err api_error) ~;;
            pure (mkResponse (JList []) 500))).

Definition price_history_of (table_name : string) : Query :=
  mkQuery table_name
    "timestamp, avg_price, avg_price_with_shipping, total_listings, price_change, percent_change"
    [c_order "timestamp" true; c_limit 100].

(** One point of the chart, from one record of the table. *)
Definition price_point (record : Dict) : H Json :=
  timestamp <~ item "timestamp" record ;;
  created_at <~ item "timestamp" record ;;
  price <~ item "avg_price_with_shipping" record ;;
  avg_price_with_shipping <~ item "avg_price_with_shipping" record ;;
  pure (JDict [("timestamp", timestamp);
               ("created_at", created_at);
               ("price", price);
               ("avg_price_with_shipping", avg_price_with_shipping);
               ("volume", dict_get_default "total_listings" (JInt 0) record)]).

(** [for record in records: processed_data.append(f record)]. *)
Fixpoint for_each {A B} (f : A -> H B) (l : list A) : H (list B) :=
  match l with
  | [] => pure []
  | a :: l' => b <~ f a ;; bs <~ for_each f l' ;; pure (b :: bs)
  end.

Definition is_nonempty_list (j : Json) : option (list Json) :=
  match j with
  | JList (x :: l) => Some (x :: l)
  | _ => None
  end.

Definition get_secure_price_history (collectible_id table_name : string)
  : H Response :=
  early <~
    try_catch
      (external_data <~
         external_get ("/api/price-history/" ++ collectible_id ++ "/" ++ table_name) ;;
       match is_nonempty_list external_data with
       | Some l =>
           log_line INFO
             ("Retrieved " ++ show_len l
              ++ " authentic price history points from external API") d_none ~;;
           pure (Some (jsonify external_data))
       | None => pure None
       end)
      any_exception
      (fun e => log_line INFO "External API failed: " (d_err_100 e) ~;; pure None) ;;
  match early with
  | Some response => pure response
  | None =>
      try_catch
        (client <~ get_supabase_client ;;
         if client
         then
           rows <~ execute (price_history_of table_name) ;;
           match rows with
           | _ :: _ =>
               processed_data <~ for_each price_point rows ;;
               log_line INFO
                 ("Retrieved " ++ show_len processed_data
                  ++ " authentic price history records from " ++ table_name)
                 d_none ~;;
               pure (jsonify (JList processed_data))
           | [] =>
               log_line INFO ("No authentic price history found in " ++ table_name)
                        d_none ~;;
               pure (jsonify (JList []))
           end
         else
           log_line ERROR "Supabase client not available" d_none ~;;
           pure (jsonify (JList [])))
        any_exception
        (fun e =>
           log_line ERROR ("Error querying " ++ table_name ++ ": ") (d_err e) ~;;
           pure (jsonify (JList [])))
  end.

(** What a point of the chart is to the record it is made from. *)
Definition is_price_point (record : Dict) (point : Json) : Prop :=
  exists t a,
    dict_get "timestamp" record = Some t /\
    dict_get "avg_price_with_shipping" record = Some a /\
    point = JDict [("timestamp", t); ("created_at", t); ("price", a);
                   ("avg_price_with_shipping", a);
                   ("volume", dict_get_default "total_listings" (JInt 0) record)].

Definition lacks_price (record : Dict) : Prop :=
  dict_get "timestamp" record = None \/
  dict_get "avg_price_with_shipping" record = None.

(** *** The secure assets route *)

Definition secure_assets_of (user_id : Json) : Query :=
  mkQuery "user_assets"
    "asset_id, quantity, current_price, user_price, updated_at"
    [c_eq "user_id" user_id; c_gt "quantity" (JInt 0); c_order "updated_at" true].

(** One entry of the answer, from one row of [user_assets]. *)
Definition asset_entry (asset : Dict) : H Json :=
  id <~ item "asset_id" asset ;;
  quantity <~ item "quantity" asset ;;
  current_price <~ item "current_price" asset ;;
  user_price <~ item "user_price" asset ;;
  updated_at <~ item "updated_at" asset ;;
  pure (JDict [("id", id); ("quantity", quantity);
               ("current_price", current_price); ("user_price", user_price);
               ("updated_at", updated_at)]).

Definition get_secure_user_assets (username : string) : H Response :=
  try_catch
    (log_line INFO
       ("Secure assets request for user: " ++ username
        ++ " (auth bypassed for testing)") d_none ~;;
     client <~ get_supabase_client ;;
     found <~
       (if client
        then
          try_catch
            (users <~ execute (users_by_name username) ;;
             match users with
             | u :: _ =>
                 user_id <~ item "id" u ;;
                 assets <~ execute (secure_assets_of user_id) ;;
                 match assets with
                 | _ :: _ =>
                     assets_data <~ for_each asset_entry assets ;;
                     log_line INFO
                       ("Fetched " ++ show_len assets_data ++ " secure assets for "
                        ++ username ++ " from Supabase") d_none ~;;
                     pure (Some (jsonify (JList assets_data)))
                 | [] => pure None
                 end
             | [] =>
                 log_line INFO ("User " ++ username ++ " not found in Supabase")
                          d_none ~;;
                 pure None
             end)
            any_exception
            (fun e =>
               log_line ERROR "Supabase user assets error: " (d_err e) ~;;
               pure None)
        else pure None) ;;
     match found with
     | Some response => pure response
     | None =>
         assets_data <~ external_get ("/api/user/assets/" ++ username) ;;
         pure (jsonify assets_data)
     end)
    any_exception
    (fun e =>
       log_line ERROR ("Error fetching secure assets for " ++ username ++ ": ")
                (d_err e) ~;;
       pure (mkResponse (JList []) 500)).

(** What an entry of the answer is to the row it is made from. *)
Definition is_asset_entry (asset : Dict) (entry : Json) : Prop :=
  exists id quantity current_price user_price updated_at,
    dict_get "asset_id" asset = Some id /\
    dict_get "quantity" asset = Some quantity /\
    dict_get "current_price" asset = Some current_price /\
    dict_get "user_price" asset = Some user_price /\
    dict_get "updated_at" asset = Some updated_at /\
    entry = JDict [("id", id); ("quantity", quantity);
                   ("current_price", current_price); ("user_price", user_price);
                   ("updated_at", updated_at)].

(** *** The market summary *)

(** [s.startswith(p)]. *)
Fixpoint starts_with (p s : string) : bool :=
  match p, s with
  | EmptyString, _ => true
  | String a p', String b s' => Ascii.eqb a b && starts_with p' s'
  | String _ _, EmptyString => false
  end.

(** [s.replace(old, new)] for a pattern [old] that is not empty, read
    from the left: where [old] starts, [new] is written and [old] is
    passed over; [skip] counts what is left to pass over. *)
Fixpoint replace_from (old new : string) (skip : nat) (s : string) : string :=
  match s with
  | EmptyString => EmptyString
  | String c s' =>
      match skip with
      | S k => replace_from old new k s'
      | O =>
          if starts_with old s
          then new ++ replace_from old new (String.length old - 1) s'
          else String c (replace_from old new O s')
      end
  end.

Definition py_replace (old new s : string) : string := replace_from old new O s.

(** Whether [old] starts at one of the characters of [p], in
    [p ++ rest]. *)
Fixpoint starts_inside (old p rest : string) : bool :=
  match p with
  | EmptyString => false
  | String c p' => starts_with old (p ++ rest) || starts_inside old p' rest
  end.

Definition market_summary_table (table_name : string) : string :=
  py_replace "_price_history" "_market_summary" table_name.

Definition market_summary_of (table_name : string) : Query :=
  mkQuery (market_summary_table table_name) "*" [c_limit 1].

Definition market_summary (record : Dict) : H Json :=
  timestamp <~ item "timestamp" record ;;
  created_at <~ item "timestamp" record ;;
  avg_price_with_shipping <~ item "avg_price_with_shipping" record ;;
  current_price <~ item "avg_price_with_shipping" record ;;
  last_updated <~ item "timestamp" record ;;
  pure (JDict [("timestamp", timestamp);
               ("created_at", created_at);
               ("avg_price_with_shipping", avg_price_with_shipping);
               ("current_price", current_price);
               ("24h_change", dict_get_default "percent_change" (JInt 0) record);
               ("24h_volume", dict_get_default "total_listings" (JInt 0) record);
               ("price_change", dict_get_default "price_change" (JInt 0) record);
               ("last_updated", last_updated)]).

Definition get_secure_market_summary (collectible_id table_name : string)
  : H Response :=
  early <~
    try_catch
      (market_data <~
         external_get ("/api/market-summary/" ++ collectible_id ++ "/" ++ table_name) ;;
       if truthy market_data
       then
         log_line INFO "Retrieved authentic market summary from external API"
                  d_none ~;;
         pure (Some (jsonify market_data))
       else pure None)
      any_exception
      (fun e => log_line INFO "External API failed: " (d_err_100 e) ~;; pure None) ;;
  match early with
  | Some response => pure response
  | None =>
      try_catch
        (client <~ get_supabase_client ;;
         if client
         then
           rows <~ execute (market_summary_of table_name) ;;
           match rows with
           | record :: _ =>
               market_data <~ market_summary record ;;
               log_line INFO
                 ("Retrieved authentic market summary from "
                  ++ market_summary_table table_name) d_none ~;;
               pure (jsonify market_data)
           | [] =>
               log_line INFO
                 ("No authentic market summary found in "
                  ++ market_summary_table table_name) d_none ~;;
               pure (jsonify (error_body "No market summary data found"))
           end
         else
           log_line ERROR "Supabase client not available" d_none ~;;
           pure (jsonify (error_body "Database unavailable")))
        any_exception
        (fun e =>
           log_line ERROR "Error querying market summary: " (d_err e) ~;;
           pure (jsonify (error_body "Failed to fetch market summary")))
  end.

(** *** Environments of the examples *)

(** A store with the user [alice], her balance, the maintenance flag
    set, no collectible, and one table of prices with a record that has
    no listing count. *)
Definition example_store (q : Query) : Answer :=
  if String.eqb (q_table q) "users" then data [[("id", JInt 7)]]
  else if String.eqb (q_table q) "token_balances"
       then data [[("balance", JInt 120)]]
  else if String.eqb (q_table q) "admin_configs"
       then data [[("config_value", JStr "true")]]
  else if String.eqb (q_table q) "collectibles" then data []
  else if String.eqb (q_table q) "ebay_genesect_price_history"
       then data [[("timestamp", JStr "2025-01-01T00:00:00");
                   ("avg_price_with_shipping", JInt 42)]]
  else refused "relation does not exist".

Definition refusing_store (_ : Query) : Answer := refused "connection reset".

Definition unreachable_api (_ : HttpRequest) : HttpAnswer :=
  http_fails "connection refused".

Definition answering_api (_ : HttpRequest) : HttpAnswer :=
  http_response 200 (Some (JDict [("balance", JInt 5)])).

(** The store answers and the external API cannot be reached. *)
Definition example_env : Env :=
  mkEnv true (Some "secret-key-0123456789") "https://api.example" example_store
        unreachable_api true "2025-01-01T00:00:00".

(** The store refuses every query. *)
Definition refused_env : Env :=
  mkEnv true (Some "secret-key-0123456789") "https://api.example" refusing_store
        unreachable_api true "2025-01-01T00:00:00".

(** No client; the external API answers. *)
Definition external_only_env : Env :=
  mkEnv false (Some "secret-key-0123456789") "https://api.example" refusing_store
        answering_api true "2025-01-01T00:00:00".

(** No key is configured. *)
Definition keyless_env : Env :=
  mkEnv true None "https://api.example" example_store unreachable_api true
        "2025-01-01T00:00:00".

(** What [request.headers.get] gives for a request with the one header
    [name]. *)
Definition one_header (name value : string) (k : string) : option string :=
  if String.eqb k name then Some value else None.

End Api.

(** ** Vocabulary of the statements *)

(** A record that [verify_and_consume_token tok purp] may redeem at
    the instant [now]. *)
Definition redeemable (tok purp : string) (now : Z) (r : Row) : Prop :=
  token r = tok /\ purpose r = purp /\ now < expires_at r /\ used_at r = None.

(** The next [n] calls of [.execute()] reach the store and are
    answered. *)
Definition answers (n : nat) (w : World) : Prop :=
  forallb negb (firstn n (faults w)) = true.

(** The world once a call of [.execute()] has gone through: the head
    of [faults] is used up. *)
Definition answered (w : World) : World := set_faults (tl (faults w)) w.

(** The world once [n] bytes were read from the random source. *)
Definition drawn (n : nat) (w : World) : World :=
  set_rng (mkRng (pool (rng w)) (cursor (rng w) + n)%nat) w.

(** The token the generator hands out next. *)
Definition random_bytes (n : nat) (w : World) : list byte :=
  map (pool (rng w)) (seq (cursor (rng w)) n).

Definition next_token (w : World) : string := hexlify (random_bytes 32 w).

(** The table once the rows of token [tok] are marked used at [t]. *)
Definition consume (tok : string) (t : Z) (rows : list Row) : list Row :=
  map (fun r => if String.eqb (token r) tok then mark_used t r else r) rows.

(** The table once the rows that expired before [now] are gone. *)
Definition sweep (now : Z) (rows : list Row) : list Row :=
  filter (fun r => now <=? expires_at r) rows.

Definition is_hex_digit (c : ascii) : bool :=
  match hex_value c with Some _ => true | None => false end.

Fixpoint string_forall (p : ascii -> bool) (s : string) : bool :=
  match s with
  | EmptyString => true
  | String c s' => p c && string_forall p s'
  end.

(** ** Worlds of the examples *)

Definition example_rng : Rng :=
  mkRng (fun n => if Nat.even n then xa7 else x3c) 0.

(** The token [example_rng] gives first. *)
Definition example_token : string :=
  "a73ca73ca73ca73ca73ca73ca73ca73ca73ca73ca73ca73ca73ca73ca73ca73c".

(** Client in place, store answering, empty table, one second after the
    clock's origin. *)
Definition fresh_world : World :=
  mkWorld true [] true [] 1000000 example_rng [].

(** [issue("user-42", "balance-reveal", 15)] at [fresh_world] adds this
    record. *)
Definition pending_row : Row :=
  mkRow example_token "user-42" 901000000 "balance-reveal" None.

Definition pending_world : World :=
  mkWorld true [pending_row] true [] 1000000 example_rng [].

(** The same table behind a store that refuses the next call, and
    without a client. *)
Definition refusing_world : World := set_faults [true] pending_world.

Definition clientless_world : World :=
  mkWorld false [pending_row] true [] 1000000 example_rng [].

(** [pending_world] once the token was redeemed. *)
Definition consumed_world : World :=
  snd (verify_and_consume_token example_token "balance-reveal" pending_world).

(** Three records that expired, one of them consumed, and two that did
    not, one of them consumed; the clock reads 1000. *)
Definition swept_rows : list Row :=
  [mkRow "t1" "u1" 100 "login" None;
   mkRow "t2" "u2" 5000 "login" None;
   mkRow "t3" "u3" 999 "login" (Some 50);
   mkRow "t4" "u4" 1000 "login" (Some 900);
   mkRow "t5" "u5" 0 "reset" None].

Definition sweeper_world : World :=
  mkWorld true swept_rows true [] 1000 example_rng [].

(** Calls of [verify_and_consume_token] that are about to start. *)
Definition calls (n : nat) (tok purp : string) : list Call :=
  repeat (mkCall tok purp at_entry) n.

(** Every call runs up to the answer of its [select], then every call
    runs its [update] and returns. *)
Definition selects_then_updates (n : nat) : list nat := seq 0 n ++ seq 0 n.

(** One call after the other, each from entry to return. *)
Definition one_by_one (n : nat) : list nat :=
  flat_map (fun i => [i; i]) (seq 0 n).

(** * Properties *)

(** ** The generator *)

Lemma hex_byte_roundtrip (b : byte) :
  let n := Byte.to_N b in
  match hex_value (hex_digit (N.shiftr n 4)), hex_value (hex_digit (N.land n 15)) with
  | Some h, Some l => Byte.of_N (16 * h + l) = Some b
  | _, _ => False
  end.
Proof. destruct b; vm_compute; reflexivity. Qed.

Lemma unhexlify_hexlify (bs : list byte) : unhexlify (hexlify bs) = Some bs.
Proof.
  induction bs as [|b bs IH]; [reflexivity|].
  cbn [hexlify unhexlify]. rewrite IH.
  pose proof (hex_byte_roundtrip b) as H. cbv zeta in H.
  destruct (hex_value (hex_digit (N.shiftr (Byte.to_N b) 4))); [|contradiction].
  destruct (hex_value (hex_digit (N.land (Byte.to_N b) 15))); [|contradiction].
  rewrite H. reflexivity.
Qed.

Lemma hexlify_length (bs : list byte) :
  String.length (hexlify bs) = (2 * List.length bs)%nat.
Proof.
  induction bs as [|b bs IH]; [reflexivity|].
  cbn [hexlify String.length List.length]. rewrite IH. lia.
Qed.

Lemma hexlify_digits (bs : list byte) :
  string_forall is_hex_digit (hexlify bs) = true.
Proof.
  induction bs as [|b bs IH]; [reflexivity|].
  cbn [hexlify string_forall]. rewrite IH.
  pose proof (hex_byte_roundtrip b) as H. cbv zeta in H. unfold is_hex_digit.
  destruct (hex_value (hex_digit (N.shiftr (Byte.to_N b) 4))); [|contradiction].
  destruct (hex_value (hex_digit (N.land (Byte.to_N b) 15))); [|contradiction].
  reflexivity.
Qed.

Lemma hexlify_inj (bs1 bs2 : list byte) : hexlify bs1 = hexlify bs2 -> bs1 = bs2.
Proof.
  intros H. apply (f_equal unhexlify) in H.
  rewrite !unhexlify_hexlify in H. congruence.
Qed.

Lemma random_bytes_length (n : nat) (w : World) :
  List.length (random_bytes n w) = n.
Proof. unfold random_bytes. rewrite length_map, length_seq. reflexivity. Qed.

Lemma generate_secure_token_eq (w : World) :
  generate_secure_token w =
  (Ok (next_token w),
   set_rng (mkRng (pool (rng w)) (cursor (rng w) + 32)%nat) w).
Proof. reflexivity. Qed.

(** C9. [generate_secure_token] takes no argument and always returns:
    its result is the hexadecimal form of 32 bytes read from the
    operating system's random source, which is what [secrets] draws
    from.  The string has 64 characters whatever the bytes are, all of
    them hexadecimal digits, and it determines the 32 bytes, so it
    carries their 256 bits, which is not less than 128.  The one effect
    is on the random source, which moves on by 32 bytes: the table, the
    clock, the log and the store's state are as before. *)
Theorem generate_secure_token_fixed_length_256_bits (w : World) :
  exists t w',
    generate_secure_token w = (Ok t, w') /\
    String.length t = 64%nat /\
    string_forall is_hex_digit t = true /\
    unhexlify t = Some (random_bytes 32 w) /\
    128 <= 8 * Z.of_nat (List.length (random_bytes 32 w)) /\
    (forall v : World, next_token v = t -> random_bytes 32 v = random_bytes 32 w) /\
    w' = set_rng (mkRng (pool (rng w)) (cursor (rng w) + 32)%nat) w /\
    auth_tokens w' = auth_tokens w /\ log w' = log w /\
    clock w' = clock w /\ faults w' = faults w /\ supabase w' = supabase w.
Proof.
  exists (next_token w), (set_rng (mkRng (pool (rng w)) (cursor (rng w) + 32)%nat) w).
  split; [apply generate_secure_token_eq|].
  unfold next_token.
  split; [rewrite hexlify_length, random_bytes_length; reflexivity|].
  split; [apply hexlify_digits|].
  split; [apply unhexlify_hexlify|].
  split; [rewrite random_bytes_length; lia|].
  split; [intros v Hv; apply hexlify_inj; exact Hv|].
  repeat split.
Qed.

(** ** The store's filters *)

Lemma matches_valid_unused (tok purp : string) (now : Z) (r : Row) :
  matches (valid_unused tok purp now) r = true <-> redeemable tok purp now r.
Proof.
  unfold matches, valid_unused, redeemable. cbn [forallb holds].
  rewrite !andb_true_iff, !String.eqb_eq, Z.ltb_lt.
  destruct (used_at r); intuition congruence.
Qed.

Lemma matches_eq_token (tok : string) (r : Row) :
  matches [eq_token tok] r = String.eqb (token r) tok.
Proof. unfold matches. cbn [forallb holds]. apply andb_true_r. Qed.

Lemma matches_lt_expires_at (now : Z) (r : Row) :
  negb (matches [lt_expires_at now] r) = (now <=? expires_at r).
Proof.
  unfold matches. cbn [forallb holds]. rewrite andb_true_r.
  destruct (Z.ltb_spec (expires_at r) now), (Z.leb_spec now (expires_at r));
    try reflexivity; lia.
Qed.

Lemma update_is_consume (tok : string) (t : Z) (rows : list Row) :
  map (fun r => if matches [eq_token tok] r then mark_used t r else r) rows
  = consume tok t rows.
Proof.
  unfold consume. apply map_ext. intros r. rewrite matches_eq_token. reflexivity.
Qed.

Lemma delete_is_sweep (now : Z) (rows : list Row) :
  filter (fun r => negb (matches [lt_expires_at now] r)) rows = sweep now rows.
Proof.
  unfold sweep. apply filter_ext. intros r. apply matches_lt_expires_at.
Qed.

Lemma filter_nil_none {A} (f : A -> bool) (l : list A) :
  filter f l = [] <-> forall x, In x l -> f x = false.
Proof.
  induction l as [|a l IH]; cbn [filter].
  - split; [intros _ x []|reflexivity].
  - destruct (f a) eqn:E.
    + split; [discriminate|]. intros H. specialize (H a (or_introl eq_refl)). congruence.
    + rewrite IH. split.
      * intros H x [<-|Hx]; auto.
      * intros H x Hx. apply H. right. exact Hx.
Qed.

Lemma filter_head_in {A} (f : A -> bool) (l : list A) (a : A) (rest : list A) :
  filter f l = a :: rest -> In a l /\ f a = true.
Proof.
  intros H. apply filter_In. rewrite H. left. reflexivity.
Qed.

(** ** [verify_and_consume_token], branch by branch *)

Lemma verify_without_client (tok purp : string) (w : World) :
  supabase w = false ->
  verify_and_consume_token tok purp w =
  (Ok Invalid, add_log (log_error "Supabase client not initialized" None) w).
Proof.
  intros H. unfold verify_and_consume_token, get_supabase_client, read_supabase,
    bind, logger, ret. rewrite H. reflexivity.
Qed.

Lemma verify_select_raises (tok purp : string) (w : World) (fs : list bool) :
  supabase w = true -> faults w = true :: fs ->
  verify_and_consume_token tok purp w =
  (Ok Invalid,
   add_log (log_error "Error verifying token" (Some (APIError "store unavailable")))
           (set_faults fs w)).
Proof.
  intros H F. unfold verify_and_consume_token, get_supabase_client, read_supabase,
    try_except, select_user_id, reach_store, datetime_now, bind, logger, ret.
  rewrite H. cbn. rewrite F. reflexivity.
Qed.

Lemma reach_store_answered (w : World) :
  hd false (faults w) = false -> reach_store w = (Ok tt, answered w).
Proof.
  unfold reach_store, answered. destruct w as [sb rows uq fs clk g lg]. cbn.
  destruct fs as [|[] fs]; cbn; intros H; try discriminate; reflexivity.
Qed.

Lemma reach_store_refused (w : World) :
  hd false (faults w) = true ->
  reach_store w = (Raise (APIError "store unavailable"), answered w).
Proof.
  unfold reach_store, answered. destruct (faults w) as [|[] fs]; cbn;
    intros H; try discriminate; reflexivity.
Qed.

Lemma verify_no_row (tok purp : string) (w : World) :
  supabase w = true -> hd false (faults w) = false ->
  filter (matches (valid_unused tok purp (clock w))) (auth_tokens w) = [] ->
  verify_and_consume_token tok purp w = (Ok Invalid, answered w).
Proof.
  intros H F E. unfold verify_and_consume_token, get_supabase_client, read_supabase,
    try_except, select_user_id, datetime_now, bind, logger, ret.
  rewrite H. cbn. rewrite (reach_store_answered w F). cbn.
  change (auth_tokens (answered w)) with (auth_tokens w). rewrite E. reflexivity.
Qed.

Lemma verify_row_update_raises (tok purp : string) (w : World) (r : Row)
    (rest : list Row) :
  supabase w = true -> hd false (faults w) = false ->
  hd false (faults (answered w)) = true ->
  filter (matches (valid_unused tok purp (clock w))) (auth_tokens w) = r :: rest ->
  verify_and_consume_token tok purp w =
  (Ok Invalid,
   add_log (log_error "Error verifying token" (Some (APIError "store unavailable")))
           (answered (answered w))).
Proof.
  intros H F F2 E. unfold verify_and_consume_token, get_supabase_client,
    read_supabase, try_except, select_user_id, update_used_at, datetime_now,
    bind, logger, ret.
  rewrite H. cbn. rewrite (reach_store_answered w F). cbn.
  change (auth_tokens (answered w)) with (auth_tokens w). rewrite E. cbn.
  rewrite (reach_store_refused _ F2). reflexivity.
Qed.

Lemma verify_row (tok purp : string) (w : World) (r : Row) (rest : list Row) :
  supabase w = true -> hd false (faults w) = false ->
  hd false (faults (answered w)) = false ->
  filter (matches (valid_unused tok purp (clock w))) (auth_tokens w) = r :: rest ->
  verify_and_consume_token tok purp w =
  (Ok (Valid (user_id r)),
   set_auth_tokens (consume tok (clock w) (auth_tokens w)) (answered (answered w))).
Proof.
  intros H F F2 E. unfold verify_and_consume_token, get_supabase_client,
    read_supabase, try_except, select_user_id, update_used_at, datetime_now,
    bind, logger, ret.
  rewrite H. cbn. rewrite (reach_store_answered w F). cbn.
  change (auth_tokens (answered w)) with (auth_tokens w). rewrite E. cbn.
  rewrite (reach_store_answered _ F2). cbn -[matches].
  change (auth_tokens (answered (answered w))) with (auth_tokens w).
  change (clock (answered w)) with (clock w).
  rewrite <- (update_is_consume tok (clock w) (auth_tokens w)). reflexivity.
Qed.

Lemma answers_S (n : nat) (w : World) :
  answers (S n) w <-> hd false (faults w) = false /\ answers n (answered w).
Proof.
  unfold answers, answered. destruct w as [sb rows uq fs clk g lg]. cbn.
  destruct fs as [|[] fs]; cbn.
  - destruct n; intuition.
  - intuition discriminate.
  - intuition.
Qed.

(** Every run of [verify_and_consume_token] is one of two kinds: it
    returns [Invalid] and leaves the table as it was, or the store
    answered twice, the [select] found a row, and the rows of the token
    are marked used. *)
Lemma verify_cases (tok purp : string) (w : World) :
  (exists w',
      verify_and_consume_token tok purp w = (Ok Invalid, w') /\
      auth_tokens w' = auth_tokens w /\
      (supabase w = false \/ hd false (faults w) = true \/
       filter (matches (valid_unused tok purp (clock w))) (auth_tokens w) = [] \/
       hd false (faults (answered w)) = true))
  \/
  (exists r rest,
      filter (matches (valid_unused tok purp (clock w))) (auth_tokens w) = r :: rest /\
      supabase w = true /\ hd false (faults w) = false /\
      hd false (faults (answered w)) = false /\
      verify_and_consume_token tok purp w =
      (Ok (Valid (user_id r)),
       set_auth_tokens (consume tok (clock w) (auth_tokens w))
                       (answered (answered w)))).
Proof.
  destruct (supabase w) eqn:H.
  2:{ left. eexists. split; [apply verify_without_client; exact H|]. auto. }
  destruct (hd false (faults w)) eqn:F.
  { left. destruct (faults w) as [|b fs] eqn:Fs; [discriminate|].
    cbn in F. subst b. eexists. split; [apply (verify_select_raises _ _ _ fs H Fs)|].
    auto. }
  destruct (filter (matches (valid_unused tok purp (clock w))) (auth_tokens w))
    as [|r rest] eqn:E.
  { left. eexists. split; [apply verify_no_row; assumption|]. auto. }
  destruct (hd false (faults (answered w))) eqn:F2.
  { left. eexists. split; [apply (verify_row_update_raises _ _ _ r rest); assumption|].
    auto. }
  right. exists r, rest. repeat split; try assumption.
  apply (verify_row _ _ _ r rest); assumption.
Qed.

Lemma consume_used (tok : string) (t : Z) (rows : list Row) (r : Row) :
  In r (consume tok t rows) -> token r = tok -> used_at r = Some t.
Proof.
  unfold consume. rewrite in_map_iff. intros [r0 [E _]] T.
  destruct (String.eqb_spec (token r0) tok) as [Heq|Hne].
  - subst r. reflexivity.
  - subst r. contradiction.
Qed.

(** C2. With the client in place and the store answering,
    [verify_and_consume_token tok purp] returns a result, and that result
    is valid if and only if the table holds a record with that token,
    the requested purpose, [expires_at] strictly later than now and
    [used_at] null.  When it is valid, the user returned is the user of
    such a record and the records of the token are marked used at now.
    When every record fails one of the conditions (no record of that
    token, another purpose, [expires_at] not later than now as for a
    token issued with a time to live that is zero or negative, or
    [used_at] set), the result is [Invalid] and the table is as before. *)
Theorem verify_and_consume_token_iff (tok purp : string) (w : World) :
  supabase w = true -> answers 2 w ->
  exists res w',
    verify_and_consume_token tok purp w = (Ok res, w') /\
    ((exists u, res = Valid u) <->
     (exists r, In r (auth_tokens w) /\ redeemable tok purp (clock w) r)) /\
    (forall u, res = Valid u ->
       (exists r, In r (auth_tokens w) /\
                  redeemable tok purp (clock w) r /\ user_id r = u) /\
       auth_tokens w' = consume tok (clock w) (auth_tokens w) /\
       (forall r', In r' (auth_tokens w') -> token r' = tok ->
                   used_at r' = Some (clock w))) /\
    ((forall r, In r (auth_tokens w) -> ~ redeemable tok purp (clock w) r) ->
     res = Invalid /\ auth_tokens w' = auth_tokens w).
Proof.
  intros H A. apply answers_S in A. destruct A as [F A].
  apply answers_S in A. destruct A as [F2 _].
  destruct (verify_cases tok purp w) as [[w' [E [T C]]]|[r [rest [Hf [_ [_ [_ E]]]]]]].
  - exists Invalid, w'. split; [exact E|].
    assert (N : forall r, In r (auth_tokens w) -> ~ redeemable tok purp (clock w) r).
    { destruct C as [C|[C|[C|C]]]; try congruence.
      intros r Hin Hr. apply matches_valid_unused in Hr.
      rewrite (proj1 (filter_nil_none _ _) C r Hin) in Hr. discriminate. }
    split; [|split].
    + split; [intros [u Hu]; discriminate|].
      intros [r [Hin Hr]]. exfalso. exact (N r Hin Hr).
    + intros u Hu. discriminate.
    + intros _. split; [reflexivity|exact T].
  - destruct (filter_head_in _ _ _ _ Hf) as [Hin Hm].
    apply matches_valid_unused in Hm.
    eexists (Valid (user_id r)), _. split; [exact E|].
    split; [|split].
    + split; [intros _; exists r; split; assumption|intros _; eexists; reflexivity].
    + intros u Hu. injection Hu as <-. split; [exists r; auto|].
      split; [reflexivity|].
      intros r' Hr' Ht. apply (consume_used tok _ (auth_tokens w)); assumption.
    + intros N. exfalso. exact (N r Hin Hm).
Qed.

(** ** After a consumption *)

Lemma used_rows_not_selected (tok purp : string) (now : Z) (rows : list Row) :
  (forall r, In r rows -> token r = tok -> used_at r <> None) ->
  filter (matches (valid_unused tok purp now)) rows = [].
Proof.
  intros U. apply filter_nil_none. intros r Hin.
  destruct (matches (valid_unused tok purp now) r) eqn:E; [|reflexivity].
  apply matches_valid_unused in E. destruct E as [T [_ [_ N]]].
  exfalso. exact (U r Hin T N).
Qed.

Lemma verify_valid_inv (tok purp u : string) (w w1 : World) :
  verify_and_consume_token tok purp w = (Ok (Valid u), w1) ->
  auth_tokens w1 = consume tok (clock w) (auth_tokens w).
Proof.
  intros E.
  destruct (verify_cases tok purp w) as [[w' [E' _]]|[r [rest [_ [_ [_ [_ E']]]]]]];
    rewrite E in E'.
  - discriminate.
  - injection E' as _ ->. reflexivity.
Qed.

Lemma verify_all_used (tok purp : string) (w : World) :
  (forall r, In r (auth_tokens w) -> token r = tok -> used_at r <> None) ->
  exists w',
    verify_and_consume_token tok purp w = (Ok Invalid, w') /\
    auth_tokens w' = auth_tokens w.
Proof.
  intros U.
  destruct (verify_cases tok purp w) as [[w' [E [T _]]]|[r [rest [Hf _]]]].
  - exists w'. split; assumption.
  - rewrite (used_rows_not_selected tok purp (clock w) _ U) in Hf. discriminate.
Qed.

(** C3. Once [verify_and_consume_token tok purp] has returned a valid
    result, a second call with the same token and purpose returns
    [Invalid] and changes no row: whenever it runs, whether or not the
    client and the store are available then, as long as the table is
    the one the first call left. *)
Theorem second_verify_and_consume_is_invalid
    (tok purp u : string) (w w1 w2 : World) :
  verify_and_consume_token tok purp w = (Ok (Valid u), w1) ->
  auth_tokens w2 = auth_tokens w1 ->
  exists w3,
    verify_and_consume_token tok purp w2 = (Ok Invalid, w3) /\
    auth_tokens w3 = auth_tokens w2.
Proof.
  intros E T. apply verify_all_used. rewrite T, (verify_valid_inv _ _ _ _ _ E).
  intros r Hin Ht. rewrite (consume_used _ _ _ _ Hin Ht). discriminate.
Qed.

(** ** [create_auth_token], branch by branch *)

Lemma create_without_client (uid : PyVal) (purp : string) (m : option Z)
    (w : World) :
  supabase w = false ->
  create_auth_token uid purp m w =
  (Raise (Exception "Supabase client not available"),
   add_log (log_error "Supabase client not initialized" None) w).
Proof.
  intros H. unfold create_auth_token, get_supabase_client, read_supabase,
    bind, logger, ret, raise. rewrite H. reflexivity.
Qed.

Lemma create_insert_unreached (uid : PyVal) (purp : string) (m : option Z)
    (w : World) :
  supabase w = true -> hd false (faults w) = true ->
  create_auth_token uid purp m w =
  (Ok None,
   add_log (log_error "Error creating auth token"
                      (Some (APIError "store unavailable")))
           (answered (drawn 32 w))).
Proof.
  intros H F. unfold create_auth_token, get_supabase_client, read_supabase,
    generate_secure_token, token_hex, urandom, try_except, insert, datetime_now,
    bind, logger, ret, raise.
  rewrite H. cbn -[hexlify seq has_token reach_store]. fold (drawn 32 w).
  rewrite (reach_store_refused (drawn 32 w) F). reflexivity.
Qed.

Lemma create_insert_refused (uid : PyVal) (purp : string) (m : option Z)
    (w : World) :
  supabase w = true -> hd false (faults w) = false ->
  schema_unique_token w && has_token (next_token w) (auth_tokens w) = true ->
  create_auth_token uid purp m w =
  (Ok None,
   add_log (log_error "Error creating auth token"
                      (Some (APIError "duplicate key value")))
           (answered (drawn 32 w))).
Proof.
  intros H F D. unfold create_auth_token, get_supabase_client, read_supabase,
    generate_secure_token, token_hex, urandom, try_except, insert, datetime_now,
    bind, logger, ret, raise.
  rewrite H. cbn -[hexlify seq has_token reach_store]. fold (drawn 32 w).
  rewrite (reach_store_answered (drawn 32 w) F). cbn -[hexlify seq has_token reach_store].
  change (hexlify _) with (next_token w). rewrite D. reflexivity.
Qed.

Lemma create_inserted (uid : PyVal) (purp : string) (m : option Z) (w : World) :
  supabase w = true -> hd false (faults w) = false ->
  schema_unique_token w && has_token (next_token w) (auth_tokens w) = false ->
  create_auth_token uid purp m w =
  (Ok (Some (next_token w)),
   set_auth_tokens
     (auth_tokens w ++
      [mkRow (next_token w) (py_str uid)
             (clock w + timedelta_minutes (match m with Some t => t | None => 15 end))
             purp None])
     (answered (drawn 32 w))).
Proof.
  intros H F D. unfold create_auth_token, get_supabase_client, read_supabase,
    generate_secure_token, token_hex, urandom, try_except, insert, datetime_now,
    bind, logger, ret, raise.
  rewrite H. cbn -[hexlify seq has_token reach_store]. fold (drawn 32 w).
  rewrite (reach_store_answered (drawn 32 w) F). cbn -[hexlify seq has_token reach_store].
  change (hexlify _) with (next_token w). rewrite D. reflexivity.
Qed.

Lemma create_cases (uid : PyVal) (purp : string) (m : option Z) (w : World) :
  (exists r w',
      create_auth_token uid purp m w = (r, w') /\
      r <> Ok (Some (next_token w)) /\ auth_tokens w' = auth_tokens w)
  \/
  (supabase w = true /\ hd false (faults w) = false /\
   schema_unique_token w && has_token (next_token w) (auth_tokens w) = false /\
   create_auth_token uid purp m w =
   (Ok (Some (next_token w)),
    set_auth_tokens
      (auth_tokens w ++
       [mkRow (next_token w) (py_str uid)
              (clock w + timedelta_minutes (match m with Some t => t | None => 15 end))
              purp None])
      (answered (drawn 32 w)))).
Proof.
  destruct (supabase w) eqn:H.
  2:{ left. eexists _, _. split; [apply create_without_client; exact H|].
      split; [discriminate|reflexivity]. }
  destruct (hd false (faults w)) eqn:F.
  { left. eexists _, _. split; [apply create_insert_unreached; assumption|].
    split; [discriminate|reflexivity]. }
  destruct (schema_unique_token w && has_token (next_token w) (auth_tokens w)) eqn:D.
  { left. eexists _, _. split; [apply create_insert_refused; assumption|].
    split; [discriminate|reflexivity]. }
  right. repeat split; try assumption. apply create_inserted; assumption.
Qed.

(** C6. Issuance never touches a record that exists: the table after
    [create_auth_token] is the table before with at most one record
    added at its end.  With the client in place, the store answering and,
    where the table declares the token unique, a token that is not in the
    table yet, [create_auth_token user_id purpose ttl] returns the token
    it has just drawn from the generator and has added one record: keyed
    by that token, holding [str(user_id)] and the purpose, expiring at
    now plus [ttl] minutes, and pending ([used_at] null).  The generator
    has moved on by 32 bytes, so the next token comes from other bytes. *)
Theorem create_auth_token_adds_pending_record
    (uid : PyVal) (purp : string) (ttl : Z) (w : World) :
  (exists added,
      auth_tokens (snd (create_auth_token uid purp (Some ttl) w)) =
      auth_tokens w ++ added) /\
  (supabase w = true -> answers 1 w ->
   (schema_unique_token w = true ->
    has_token (next_token w) (auth_tokens w) = false) ->
   exists w',
     create_auth_token uid purp (Some ttl) w = (Ok (Some (next_token w)), w') /\
     auth_tokens w' =
     auth_tokens w ++
     [mkRow (next_token w) (py_str uid) (clock w + ttl * 60000000) purp None] /\
     cursor (rng w') = (cursor (rng w) + 32)%nat).
Proof.
  split.
  - destruct (create_cases uid purp (Some ttl) w) as [[r [w' [E [_ T]]]]|[_ [_ [_ E]]]];
      rewrite E; cbn [snd].
    + exists []. rewrite app_nil_r. exact T.
    + eexists. reflexivity.
  - intros H A U. apply answers_S in A. destruct A as [F _].
    eexists. split; [apply create_inserted; try assumption|].
    + destruct (schema_unique_token w); [|reflexivity]. rewrite (U eq_refl). reflexivity.
    + split; reflexivity.
Qed.

Lemma fresh_token_not_selected (tok purp : string) (now : Z) (rows : list Row) :
  has_token tok rows = false ->
  filter (matches (valid_unused tok purp now)) rows = [].
Proof.
  intros Hf. apply filter_nil_none. intros r Hin.
  destruct (matches (valid_unused tok purp now) r) eqn:E; [|reflexivity].
  apply matches_valid_unused in E. destruct E as [T _].
  assert (X : has_token tok rows = true).
  { unfold has_token. apply existsb_exists. exists r. split; [exact Hin|].
    apply String.eqb_eq. exact T. }
  congruence.
Qed.

(** A pending record, added after records of other tokens, is redeemed
    before it expires. *)
Lemma verify_appended_row (tok purp u : string) (exp : Z) (rows : list Row)
    (w : World) :
  supabase w = true -> answers 2 w ->
  auth_tokens w = rows ++ [mkRow tok u exp purp None] ->
  has_token tok rows = false -> clock w < exp ->
  exists w',
    verify_and_consume_token tok purp w = (Ok (Valid u), w').
Proof.
  intros H A T Hf Hc. apply answers_S in A. destruct A as [F A].
  apply answers_S in A. destruct A as [F2 _].
  assert (E : filter (matches (valid_unused tok purp (clock w))) (auth_tokens w)
              = [mkRow tok u exp purp None]).
  { rewrite T, filter_app, (fresh_token_not_selected _ _ _ _ Hf). cbn [app filter].
    assert (M : matches (valid_unused tok purp (clock w)) (mkRow tok u exp purp None)
                = true).
    { apply matches_valid_unused. repeat split; assumption. }
    rewrite M. reflexivity. }
  eexists. apply (verify_row tok purp w _ [] H F F2 E).
Qed.

(** Issue, wait [d], verify: the general form, for any [user_id] and an
    explicit or omitted time to live. *)
Lemma issue_then_verify (uid : PyVal) (purp : string) (m : option Z) (w : World) :
  supabase w = true -> answers 3 w ->
  has_token (next_token w) (auth_tokens w) = false ->
  exists tok w1,
    create_auth_token uid purp m w = (Ok (Some tok), w1) /\
    auth_tokens w1 =
    auth_tokens w ++
    [mkRow tok (py_str uid)
           (clock w + timedelta_minutes (match m with Some t => t | None => 15 end))
           purp None] /\
    forall d,
      d < timedelta_minutes (match m with Some t => t | None => 15 end) ->
      exists w2,
        verify_and_consume_token tok purp (elapse d w1) = (Ok (Valid (py_str uid)), w2).
Proof.
  intros H A Hf. apply answers_S in A. destruct A as [F A].
  eexists _, _. split; [apply create_inserted; try assumption|].
  { rewrite Hf. apply andb_false_r. }
  split; [reflexivity|].
  intros d Hd.
  eapply verify_appended_row with (rows := auth_tokens w).
  - exact H.
  - exact A.
  - reflexivity.
  - exact Hf.
  - cbn. lia.
Qed.

(** C4. With the client in place, the store answering and a token that
    is new to the table, [create_auth_token subject purpose ttl] with
    [ttl > 0] returns a token, and [verify_and_consume_token] on that
    token with the same purpose, called at once or at any time before
    the [ttl] minutes are over, is valid and returns exactly
    [subject]. *)
Theorem issue_then_verify_returns_subject
    (subject purp : string) (ttl : Z) (w : World) :
  0 < ttl ->
  supabase w = true -> answers 3 w ->
  has_token (next_token w) (auth_tokens w) = false ->
  exists tok w1,
    create_auth_token (PyStr subject) purp (Some ttl) w = (Ok (Some tok), w1) /\
    (exists w2,
        verify_and_consume_token tok purp (elapse 0 w1) = (Ok (Valid subject), w2)) /\
    (forall d, 0 <= d < ttl * 60000000 ->
       exists w2,
         verify_and_consume_token tok purp (elapse d w1) = (Ok (Valid subject), w2)).
Proof.
  intros Ht H A Hf.
  destruct (issue_then_verify (PyStr subject) purp (Some ttl) w H A Hf)
    as [tok [w1 [E [_ V]]]].
  exists tok, w1. split; [exact E|]. unfold timedelta_minutes in V. split.
  - apply V. lia.
  - intros d Hd. apply V. lia.
Qed.

(** C10. When the caller leaves the third argument out,
    [create_auth_token] takes 15 minutes: the record it adds expires at
    now plus 15 minutes.  The record holds [str(user_id)], so
    [verify_and_consume_token] returns that string, also for a
    [user_id] that was not a string. *)
Theorem default_ttl_and_str_user_id (uid : PyVal) (purp : string) (w : World) :
  supabase w = true -> answers 3 w ->
  has_token (next_token w) (auth_tokens w) = false ->
  exists tok w1,
    create_auth_token uid purp None w = (Ok (Some tok), w1) /\
    auth_tokens w1 =
    auth_tokens w ++
    [mkRow tok (py_str uid) (clock w + 15 * 60 * 1000000) purp None] /\
    forall d, 0 <= d < 15 * 60 * 1000000 ->
      exists w2,
        verify_and_consume_token tok purp (elapse d w1) =
        (Ok (Valid (py_str uid)), w2).
Proof.
  intros H A Hf.
  destruct (issue_then_verify uid purp None w H A Hf) as [tok [w1 [E [T V]]]].
  exists tok, w1. split; [exact E|]. split; [exact T|].
  intros d Hd. apply V. unfold timedelta_minutes. lia.
Qed.

(** ** [cleanup_expired_tokens], branch by branch *)

Lemma cleanup_without_client (w : World) :
  supabase w = false ->
  cleanup_expired_tokens w =
  (Ok tt, add_log (log_error "Supabase client not initialized" None) w).
Proof.
  intros H. unfold cleanup_expired_tokens, get_supabase_client, read_supabase,
    bind, logger, ret. rewrite H. reflexivity.
Qed.

Lemma cleanup_delete_unreached (w : World) :
  supabase w = true -> hd false (faults w) = true ->
  cleanup_expired_tokens w =
  (Ok tt,
   add_log (log_error "Error cleaning up expired tokens"
                      (Some (APIError "store unavailable")))
           (answered w)).
Proof.
  intros H F. unfold cleanup_expired_tokens, get_supabase_client, read_supabase,
    try_except, delete, datetime_now, bind, logger, ret.
  rewrite H. cbn -[reach_store]. rewrite (reach_store_refused w F). reflexivity.
Qed.

Lemma cleanup_deleted (w : World) :
  supabase w = true -> hd false (faults w) = false ->
  cleanup_expired_tokens w =
  (Ok tt,
   add_log
     (log_info_cleaned_up
        (List.length (filter (fun r => expires_at r <? clock w) (auth_tokens w))))
     (set_auth_tokens (sweep (clock w) (auth_tokens w)) (answered w))).
Proof.
  intros H F. unfold cleanup_expired_tokens, get_supabase_client, read_supabase,
    try_except, delete, datetime_now, bind, logger, ret.
  rewrite H. cbn -[reach_store]. rewrite (reach_store_answered w F).
  cbn -[matches]. change (auth_tokens (answered w)) with (auth_tokens w).
  rewrite <- (delete_is_sweep (clock w) (auth_tokens w)).
  assert (X : filter (matches [lt_expires_at (clock w)]) (auth_tokens w)
              = filter (fun r => expires_at r <? clock w) (auth_tokens w)).
  { apply filter_ext. intros r. unfold matches. cbn. apply andb_true_r. }
  rewrite <- X. reflexivity.
Qed.

Lemma cleanup_table (w : World) :
  auth_tokens (snd (cleanup_expired_tokens w)) = auth_tokens w \/
  auth_tokens (snd (cleanup_expired_tokens w)) = sweep (clock w) (auth_tokens w).
Proof.
  destruct (supabase w) eqn:H.
  2:{ left. rewrite (cleanup_without_client w H). reflexivity. }
  destruct (hd false (faults w)) eqn:F.
  - left. rewrite (cleanup_delete_unreached w H F). reflexivity.
  - right. rewrite (cleanup_deleted w H F). reflexivity.
Qed.

Lemma sweep_In (now : Z) (rows : list Row) (r : Row) :
  In r (sweep now rows) <-> In r rows /\ now <= expires_at r.
Proof. unfold sweep. rewrite filter_In, Z.leb_le. reflexivity. Qed.

Lemma sweep_nothing (now : Z) (rows : list Row) :
  (forall r, In r rows -> now <= expires_at r) ->
  sweep now rows = rows /\
  filter (fun r => expires_at r <? now) rows = [].
Proof.
  intros K. induction rows as [|a rows IH]; [split; reflexivity|].
  assert (Ka : now <= expires_at a) by (apply K; left; reflexivity).
  destruct IH as [IH1 IH2]; [intros r Hr; apply K; right; exact Hr|].
  unfold sweep in *. cbn [filter].
  destruct (Z.leb_spec now (expires_at a)); [|lia].
  destruct (Z.ltb_spec (expires_at a) now); [lia|].
  rewrite IH1, IH2. split; reflexivity.
Qed.

(** C7. With the client in place and the store answering, a tick of the
    sweeper makes one call to the store; after it the table is the
    table before without the rows whose [expires_at] is earlier than
    now, and the kept rows are unchanged and in their order; [used_at]
    plays no part.  The number of rows it reports is the number of rows
    that had expired.  A second tick right after changes nothing, and
    neither does a later one as long as no kept row has expired in the
    meantime; when it reaches the store it reports zero rows. *)
Theorem cleanup_tick_deletes_exactly_expired (w : World) :
  supabase w = true -> answers 1 w ->
  exists w1,
    cleanup_expired_tokens w = (Ok tt, w1) /\
    faults w1 = tl (faults w) /\
    auth_tokens w1 = filter (fun r => clock w <=? expires_at r) (auth_tokens w) /\
    (forall r, In r (auth_tokens w1) <->
               In r (auth_tokens w) /\ ~ expires_at r < clock w) /\
    log w1 =
    log w ++
    [log_info_cleaned_up
       (List.length (filter (fun r => expires_at r <? clock w) (auth_tokens w)))] /\
    auth_tokens (snd (cleanup_expired_tokens w1)) = auth_tokens w1 /\
    (forall w2,
        auth_tokens w2 = auth_tokens w1 ->
        (forall r, In r (auth_tokens w1) -> clock w2 <= expires_at r) ->
        auth_tokens (snd (cleanup_expired_tokens w2)) = auth_tokens w1 /\
        (supabase w2 = true -> answers 1 w2 ->
         log (snd (cleanup_expired_tokens w2)) = log w2 ++ [log_info_cleaned_up 0])).
Proof.
  intros H A. apply answers_S in A. destruct A as [F _].
  eexists. split; [apply (cleanup_deleted w H F)|].
  split; [reflexivity|]. split; [reflexivity|].
  change (auth_tokens (add_log _ (set_auth_tokens ?l _))) with l.
  split.
  { intros r. rewrite sweep_In. split; intros [X Y]; split; auto; lia. }
  split; [reflexivity|].
  assert (N : forall w2,
             auth_tokens w2 = sweep (clock w) (auth_tokens w) ->
             (forall r, In r (sweep (clock w) (auth_tokens w)) ->
                        clock w2 <= expires_at r) ->
             auth_tokens (snd (cleanup_expired_tokens w2))
             = sweep (clock w) (auth_tokens w) /\
             (supabase w2 = true -> answers 1 w2 ->
              log (snd (cleanup_expired_tokens w2))
              = log w2 ++ [log_info_cleaned_up 0])).
  { intros w2 T K. rewrite <- T in K.
    destruct (sweep_nothing (clock w2) (auth_tokens w2) K) as [S1 S2]. split.
    - destruct (cleanup_table w2) as [E|E]; rewrite E; [exact T|].
      rewrite S1. exact T.
    - intros H2 A2. apply answers_S in A2. destruct A2 as [F2 _].
      rewrite (cleanup_deleted w2 H2 F2). cbn [snd]. rewrite S2. reflexivity. }
  split.
  - apply N; [reflexivity|]. intros r Hr. apply sweep_In in Hr. apply Hr.
  - exact N.
Qed.

(** C8, as the code has it.  With the client in place and the store
    answering, a row of the table is still there after a tick of the
    sweeper if and only if its [expires_at] is not earlier than now,
    whether [used_at] is set or null: a consumed row that has expired is
    deleted like a pending one, and a row that has not expired is kept,
    consumed or not. *)
Theorem cleanup_keeps_row_iff_not_expired (w : World) (r : Row) :
  supabase w = true -> answers 1 w -> In r (auth_tokens w) ->
  (In r (auth_tokens (snd (cleanup_expired_tokens w))) <-> clock w <= expires_at r).
Proof.
  intros H A Hin. apply answers_S in A. destruct A as [F _].
  rewrite (cleanup_deleted w H F). cbn [snd].
  change (auth_tokens (add_log _ (set_auth_tokens ?l _))) with l.
  rewrite sweep_In. tauto.
Qed.

(** A tick never raises, so the loop of the worker goes on after a
    tick that could not reach the store. *)
Lemma cleanup_never_raises (w : World) :
  exists w', cleanup_expired_tokens w = (Ok tt, w').
Proof.
  destruct (supabase w) eqn:H.
  2:{ eexists. apply cleanup_without_client. exact H. }
  destruct (hd false (faults w)) eqn:F.
  - eexists. apply cleanup_delete_unreached; assumption.
  - eexists. apply cleanup_deleted; assumption.
Qed.

Lemma cleanup_worker_never_raises (iterations : nat) (w : World) :
  exists w',
    cleanup_worker iterations w = (Ok tt, w') /\
    clock w' = clock w + Z.of_nat iterations * 21600000000.
Proof.
  revert w. induction iterations as [|n IH]; intros w.
  - exists w. split; [reflexivity|]. cbn. lia.
  - cbn [cleanup_worker]. unfold bind at 1. unfold time_sleep.
    unfold bind at 1.
    destruct (cleanup_never_raises (elapse (6 * 60 * 60 * 1000000) w)) as [w1 E].
    rewrite E.
    assert (C : clock w1 = clock w + 21600000000).
    { destruct (supabase (elapse (6 * 60 * 60 * 1000000) w)) eqn:H.
      2:{ rewrite (cleanup_without_client _ H) in E. injection E as <-. reflexivity. }
      destruct (hd false (faults (elapse (6 * 60 * 60 * 1000000) w))) eqn:F.
      - rewrite (cleanup_delete_unreached _ H F) in E. injection E as <-. reflexivity.
      - rewrite (cleanup_deleted _ H F) in E. injection E as <-. reflexivity. }
    destruct (IH w1) as [w' [E' C']]. exists w'. split; [exact E'|].
    rewrite C', C. lia.
Qed.

(** ** When the store cannot be used *)

(** C5, as the code has it.  [verify_and_consume_token] does not tell a
    store that cannot be used from a token that is not valid.  When the
    client is missing, or one of the two calls to the store fails, it
    returns [Invalid], the result it gives for an unknown token; no row
    changes, and the reason goes to the log only.  [create_auth_token]
    raises when the client is missing; when the insert fails it logs
    the error and returns [None], and no row is added. *)
Theorem storage_failure_is_reported_as_invalid
    (tok purp : string) (uid : PyVal) (m : option Z) (w : World) :
  (supabase w = false \/ ~ answers 2 w ->
   exists w',
     verify_and_consume_token tok purp w = (Ok Invalid, w') /\
     auth_tokens w' = auth_tokens w /\
     (supabase w = false \/ hd false (faults w) = true ->
      exists msg e, log w' = log w ++ [log_error msg e])) /\
  (supabase w = false ->
   exists w',
     create_auth_token uid purp m w =
     (Raise (Exception "Supabase client not available"), w') /\
     auth_tokens w' = auth_tokens w) /\
  (supabase w = true -> hd false (faults w) = true ->
   exists w',
     create_auth_token uid purp m w = (Ok None, w') /\
     auth_tokens w' = auth_tokens w /\
     log w' =
     log w ++
     [log_error "Error creating auth token" (Some (APIError "store unavailable"))]).
Proof.
  split; [|split].
  - intros D.
    destruct (supabase w) eqn:H.
    2:{ eexists. split; [apply verify_without_client; exact H|].
        split; [reflexivity|]. intros _. eexists _, _. reflexivity. }
    destruct (faults w) as [|[] fs] eqn:Fs.
    + exfalso. destruct D as [D|D]; [discriminate|]. apply D.
      unfold answers. rewrite Fs. reflexivity.
    + eexists. split; [apply (verify_select_raises _ _ _ fs H Fs)|].
      split; [reflexivity|]. intros _. eexists _, _. reflexivity.
    + destruct (verify_cases tok purp w)
        as [[w' [E [T _]]]|[r [rest [_ [_ [_ [F2 _]]]]]]].
      * exists w'. split; [exact E|]. split; [exact T|].
        cbn. intros [X|X]; discriminate.
      * exfalso. destruct D as [D|D]; [discriminate|]. apply D.
        apply answers_S. rewrite Fs. split; [reflexivity|].
        apply answers_S. split; [exact F2|]. unfold answers. reflexivity.
  - intros H. eexists. split; [apply create_without_client; exact H|]. reflexivity.
  - intros H F. eexists. split; [apply create_insert_unreached; assumption|].
    split; reflexivity.
Qed.

(** ** Calls that overlap *)

Lemma upto_select_row (tok purp : string) (w : World) (r : Row) (rest : list Row) :
  supabase w = true -> hd false (faults w) = false ->
  filter (matches (valid_unused tok purp (clock w))) (auth_tokens w) = r :: rest ->
  verify_upto_select tok purp w = (Ok (at_update (clock w) (user_id r)), answered w).
Proof.
  intros H F E. unfold verify_upto_select, get_supabase_client, read_supabase,
    try_except, select_user_id, datetime_now, bind, logger, ret.
  rewrite H. cbn -[reach_store matches]. rewrite (reach_store_answered w F).
  cbn -[matches]. change (auth_tokens (answered w)) with (auth_tokens w).
  rewrite E. reflexivity.
Qed.

Lemma from_update_answered (tok : string) (t : Z) (u : string) (w : World) :
  hd false (faults w) = false ->
  verify_from_update tok t u w =
  (Ok (returned (Valid u)),
   set_auth_tokens (consume tok t (auth_tokens w)) (answered w)).
Proof.
  intros F. unfold verify_from_update, try_except, update_used_at, bind, logger, ret.
  rewrite (reach_store_answered w F). cbn -[matches].
  change (auth_tokens (answered w)) with (auth_tokens w).
  rewrite <- (update_is_consume tok t (auth_tokens w)). reflexivity.
Qed.

(** The two halves, run one after the other, are the function. *)
Lemma verify_in_two_steps (tok purp : string) (w : World) :
  exists r w',
    verify_and_consume_token tok purp w = (Ok r, w') /\
    run [0; 0]%nat [mkCall tok purp at_entry] w = ([mkCall tok purp (returned r)], w').
Proof.
  destruct w as [sb rows uq fs clk g lg].
  unfold verify_and_consume_token, run, step_nth, step_call, verify_upto_select,
    verify_from_update, get_supabase_client, read_supabase, try_except,
    select_user_id, update_used_at, reach_store, datetime_now, bind, logger, ret.
  cbn -[matches valid_unused].
  destruct sb; [|eexists _, _; split; reflexivity].
  destruct fs as [|[] fs]; cbn -[matches valid_unused];
    try (eexists _, _; split; reflexivity);
    destruct (filter (matches (valid_unused tok purp clk)) rows) as [|r rest];
    cbn -[matches valid_unused];
    try (eexists _, _; split; reflexivity);
    destruct fs as [|[] fs]; cbn -[matches valid_unused];
    eexists _, _; split; reflexivity.
Qed.

Lemma step_call_at_entry (tok purp : string) (w w' : World) (p : Pc) :
  verify_upto_select tok purp w = (Ok p, w') ->
  step_call (mkCall tok purp at_entry) w = (mkCall tok purp p, w').
Proof. intros E. unfold step_call. cbn [pc call_token call_purpose]. rewrite E. reflexivity. Qed.

Lemma step_call_at_update (tok purp : string) (t : Z) (u : string)
    (w w' : World) (p : Pc) :
  verify_from_update tok t u w = (Ok p, w') ->
  step_call (mkCall tok purp (at_update t u)) w = (mkCall tok purp p, w').
Proof. intros E. unfold step_call. cbn [pc call_token call_purpose]. rewrite E. reflexivity. Qed.

(** Two calls for one redeemable token, the second starting before the
    first has written: both are valid. *)
Lemma overlapping_calls_both_valid (tok purp : string) (w : World) (r : Row) :
  supabase w = true -> answers 4 w ->
  In r (auth_tokens w) -> redeemable tok purp (clock w) r ->
  exists u w',
    run (selects_then_updates 2) (calls 2 tok purp) w =
    ([mkCall tok purp (returned (Valid u)); mkCall tok purp (returned (Valid u))],
     w').
Proof.
  intros H A Hin Hr.
  apply answers_S in A. destruct A as [F1 A].
  apply answers_S in A. destruct A as [F2 A].
  apply answers_S in A. destruct A as [F3 A].
  apply answers_S in A. destruct A as [F4 _].
  destruct (filter (matches (valid_unused tok purp (clock w))) (auth_tokens w))
    as [|r0 rest] eqn:E.
  { apply matches_valid_unused in Hr.
    rewrite (proj1 (filter_nil_none _ _) E r Hin) in Hr. discriminate. }
  exists (user_id r0). eexists.
  unfold selects_then_updates, calls. cbn [seq app repeat run step_nth].
  rewrite (step_call_at_entry _ _ _ _ _ (upto_select_row tok purp w r0 rest H F1 E)).
  rewrite (step_call_at_entry _ _ _ _ _
             (upto_select_row tok purp (answered w) r0 rest H F2 E)).
  rewrite (step_call_at_update _ _ _ _ _ _ _ (from_update_answered tok _ _ _ F3)).
  match goal with
  | |- context [step_call _ ?w0] =>
      rewrite (step_call_at_update _ purp _ _ w0 _ _ (from_update_answered tok _ _ w0 F4))
  end.
  reflexivity.
Qed.

(** C1, on the code.  [verify_and_consume_token] reads with one call to
    the store and writes with another, so calls that overlap are not
    held to one success.  At [pending_world] the token of
    [issue("user-42", "balance-reveal", 15)] is redeemable once.  Two
    calls of which the second reads before the first has written both
    return [{"valid": True, "userId": "user-42"}]; of 100 calls that all
    read before any has written, 100 are valid.  Run one after the
    other, one of the 100 is valid. *)
Theorem overlapping_verify_calls_all_succeed :
  map pc (fst (run (selects_then_updates 2)
                   (calls 2 example_token "balance-reveal") pending_world))
  = [returned (Valid "user-42"); returned (Valid "user-42")] /\
  List.length
    (filter succeeded
       (fst (run (selects_then_updates 100)
                 (calls 100 example_token "balance-reveal") pending_world)))
  = 100%nat /\
  forallb finished
    (fst (run (selects_then_updates 100)
              (calls 100 example_token "balance-reveal") pending_world))
  = true /\
  List.length
    (filter succeeded
       (fst (run (one_by_one 100)
                 (calls 100 example_token "balance-reveal") pending_world)))
  = 1%nat.
Proof. vm_compute. repeat split. Qed.

(** X5. A token issued with a time to live that is zero or negative is
    never redeemed, however soon the verification comes. *)
Lemma issued_expired_is_invalid (uid : PyVal) (purp : string) (ttl d : Z)
    (w : World) :
  ttl <= 0 -> 0 <= d ->
  supabase w = true -> answers 2 w ->
  has_token (next_token w) (auth_tokens w) = false ->
  exists tok w1 w2,
    create_auth_token uid purp (Some ttl) w = (Ok (Some tok), w1) /\
    verify_and_consume_token tok purp (elapse d w1) = (Ok Invalid, w2) /\
    auth_tokens w2 = auth_tokens w1.
Proof.
  intros Ht Hd H A Hf. apply answers_S in A. destruct A as [F A].
  apply answers_S in A. destruct A as [F2 _].
  eexists _, _, _. split; [apply create_inserted; try assumption|].
  { rewrite Hf. apply andb_false_r. }
  split.
  - apply verify_no_row; [exact H|exact F2|].
    cbn -[matches valid_unused]. rewrite filter_app.
    rewrite (fresh_token_not_selected _ _ _ _ Hf). cbn [app filter].
    match goal with
    | |- context [matches ?fs ?r] => destruct (matches fs r) eqn:E
    end; [|reflexivity].
    apply matches_valid_unused in E. destruct E as [_ [_ [E _]]].
    cbn in E. unfold timedelta_minutes in E. lia.
  - reflexivity.
Qed.

(** ** The statements at the worlds of the examples *)

Lemma verify_and_consume_token_iff_witness :
  supabase pending_world = true /\ answers 2 pending_world /\
  exists res w',
    verify_and_consume_token example_token "balance-reveal" pending_world
    = (Ok res, w') /\
    ((exists u, res = Valid u) <->
     (exists r, In r (auth_tokens pending_world) /\
                redeemable example_token "balance-reveal" (clock pending_world) r)).
Proof.
  split; [reflexivity|]. split; [reflexivity|].
  destruct (verify_and_consume_token_iff example_token "balance-reveal"
              pending_world eq_refl eq_refl) as [res [w' [E [I _]]]].
  exists res, w'. split; assumption.
Defined.

Lemma second_verify_and_consume_is_invalid_witness :
  verify_and_consume_token example_token "balance-reveal" pending_world
  = (Ok (Valid "user-42"), consumed_world) /\
  auth_tokens (elapse 5 consumed_world) = auth_tokens consumed_world /\
  exists w3,
    verify_and_consume_token example_token "balance-reveal" (elapse 5 consumed_world)
    = (Ok Invalid, w3) /\
    auth_tokens w3 = auth_tokens (elapse 5 consumed_world).
Proof.
  split; [reflexivity|]. split; [reflexivity|].
  apply (second_verify_and_consume_is_invalid example_token "balance-reveal"
           "user-42" pending_world consumed_world (elapse 5 consumed_world));
    reflexivity.
Defined.

Lemma issue_then_verify_returns_subject_witness :
  0 < 15 /\ supabase fresh_world = true /\ answers 3 fresh_world /\
  has_token (next_token fresh_world) (auth_tokens fresh_world) = false /\
  exists tok w1,
    create_auth_token (PyStr "user-42") "balance-reveal" (Some 15) fresh_world
    = (Ok (Some tok), w1) /\
    exists w2,
      verify_and_consume_token tok "balance-reveal" (elapse 0 w1)
      = (Ok (Valid "user-42"), w2).
Proof.
  split; [reflexivity|]. split; [reflexivity|]. split; [reflexivity|].
  split; [reflexivity|].
  destruct (issue_then_verify_returns_subject "user-42" "balance-reveal" 15
              fresh_world eq_refl eq_refl eq_refl eq_refl) as [tok [w1 [E [V _]]]].
  exists tok, w1. split; assumption.
Defined.

Lemma create_auth_token_adds_pending_record_witness :
  supabase fresh_world = true /\ answers 1 fresh_world /\
  (schema_unique_token fresh_world = true ->
   has_token (next_token fresh_world) (auth_tokens fresh_world) = false) /\
  exists w',
    create_auth_token (PyStr "user-42") "balance-reveal" (Some 15) fresh_world
    = (Ok (Some (next_token fresh_world)), w') /\
    auth_tokens w' =
    auth_tokens fresh_world ++
    [mkRow (next_token fresh_world) (py_str (PyStr "user-42"))
           (clock fresh_world + 15 * 60000000) "balance-reveal" None] /\
    cursor (rng w') = (cursor (rng fresh_world) + 32)%nat.
Proof.
  split; [reflexivity|]. split; [reflexivity|]. split; [reflexivity|].
  apply (proj2 (create_auth_token_adds_pending_record
                  (PyStr "user-42") "balance-reveal" 15 fresh_world));
    reflexivity.
Defined.

Lemma cleanup_tick_deletes_exactly_expired_witness :
  supabase sweeper_world = true /\ answers 1 sweeper_world /\
  exists w1,
    cleanup_expired_tokens sweeper_world = (Ok tt, w1) /\
    auth_tokens w1 =
    [mkRow "t2" "u2" 5000 "login" None; mkRow "t4" "u4" 1000 "login" (Some 900)] /\
    log w1 = [log_info_cleaned_up 3] /\
    auth_tokens (snd (cleanup_expired_tokens w1)) = auth_tokens w1.
Proof.
  split; [reflexivity|]. split; [reflexivity|].
  destruct (cleanup_tick_deletes_exactly_expired sweeper_world eq_refl eq_refl)
    as [w1 [E [_ [T [_ [L [I _]]]]]]].
  exists w1. split; [exact E|]. split; [exact T|]. split; [exact L|exact I].
Defined.

Lemma cleanup_keeps_row_iff_not_expired_witness :
  supabase sweeper_world = true /\ answers 1 sweeper_world /\
  In (mkRow "t3" "u3" 999 "login" (Some 50)) (auth_tokens sweeper_world) /\
  (In (mkRow "t3" "u3" 999 "login" (Some 50))
      (auth_tokens (snd (cleanup_expired_tokens sweeper_world)))
   <-> clock sweeper_world <= 999).
Proof.
  split; [reflexivity|]. split; [reflexivity|].
  assert (Hin : In (mkRow "t3" "u3" 999 "login" (Some 50)) (auth_tokens sweeper_world)).
  { right. right. left. reflexivity. }
  split; [exact Hin|].
  apply (cleanup_keeps_row_iff_not_expired sweeper_world
           (mkRow "t3" "u3" 999 "login" (Some 50)) eq_refl eq_refl Hin).
Defined.

Lemma default_ttl_and_str_user_id_witness :
  supabase fresh_world = true /\ answers 3 fresh_world /\
  has_token (next_token fresh_world) (auth_tokens fresh_world) = false /\
  exists tok w1,
    create_auth_token (PyInt 42) "balance-reveal" None fresh_world
    = (Ok (Some tok), w1) /\
    auth_tokens w1 = [mkRow tok "42" 901000000 "balance-reveal" None] /\
    exists w2,
      verify_and_consume_token tok "balance-reveal" (elapse 60000000 w1)
      = (Ok (Valid "42"), w2).
Proof.
  split; [reflexivity|]. split; [reflexivity|]. split; [reflexivity|].
  destruct (default_ttl_and_str_user_id (PyInt 42) "balance-reveal" fresh_world
              eq_refl eq_refl eq_refl) as [tok [w1 [E [T V]]]].
  exists tok, w1. split; [exact E|]. split; [exact T|].
  apply V. split; [discriminate|reflexivity].
Defined.

Lemma storage_failure_is_reported_as_invalid_witness :
  (supabase refusing_world = false \/ ~ answers 2 refusing_world) /\
  supabase clientless_world = false /\
  supabase refusing_world = true /\ hd false (faults refusing_world) = true /\
  (exists w',
      verify_and_consume_token example_token "balance-reveal" refusing_world
      = (Ok Invalid, w') /\
      auth_tokens w' = auth_tokens refusing_world) /\
  (exists w',
      create_auth_token (PyStr "user-42") "balance-reveal" (Some 15) clientless_world
      = (Raise (Exception "Supabase client not available"), w') /\
      auth_tokens w' = auth_tokens clientless_world) /\
  (exists w',
      create_auth_token (PyStr "user-42") "balance-reveal" (Some 15) refusing_world
      = (Ok None, w') /\
      auth_tokens w' = auth_tokens refusing_world).
Proof.
  assert (D : supabase refusing_world = false \/ ~ answers 2 refusing_world).
  { right. unfold answers. cbn. discriminate. }
  split; [exact D|]. split; [reflexivity|]. split; [reflexivity|].
  split; [reflexivity|].
  split; [|split].
  - destruct (proj1 (storage_failure_is_reported_as_invalid
                       example_token "balance-reveal" (PyStr "user-42") (Some 15)
                       refusing_world) D) as [w' [E [T _]]].
    exists w'. split; assumption.
  - apply (proj1 (proj2 (storage_failure_is_reported_as_invalid
                           example_token "balance-reveal" (PyStr "user-42") (Some 15)
                           clientless_world))).
    reflexivity.
  - destruct (proj2 (proj2 (storage_failure_is_reported_as_invalid
                              example_token "balance-reveal" (PyStr "user-42")
                              (Some 15) refusing_world)) eq_refl eq_refl)
      as [w' [E [T _]]].
    exists w'. split; assumption.
Defined.

(** ** Where the code departs from the specification *)

(** C5 as the specification has it fails.  The token of [pending_world]
    is redeemable there; behind a store that refuses the call, and
    without a client, the same request gets [{"valid": False}], which is
    the very result of asking for a token that does not exist. *)
Lemma storage_error_is_returned_as_invalid_token :
  fst (verify_and_consume_token example_token "balance-reveal" pending_world)
  = Ok (Valid "user-42") /\
  faults refusing_world = [true] /\
  fst (verify_and_consume_token example_token "balance-reveal" refusing_world)
  = Ok Invalid /\
  supabase clientless_world = false /\
  fst (verify_and_consume_token example_token "balance-reveal" clientless_world)
  = Ok Invalid /\
  fst (verify_and_consume_token example_token "balance-reveal" refusing_world)
  = fst (verify_and_consume_token "no-such-token" "balance-reveal" pending_world).
Proof. vm_compute. repeat split. Qed.

(** C8 as the specification has it fails.  The third row of
    [sweeper_world] is consumed and expired; a tick of the sweeper
    deletes it. *)
Lemma sweeper_deletes_consumed_row :
  used_at (mkRow "t3" "u3" 999 "login" (Some 50)) = Some 50 /\
  In (mkRow "t3" "u3" 999 "login" (Some 50)) (auth_tokens sweeper_world) /\
  ~ In (mkRow "t3" "u3" 999 "login" (Some 50))
       (auth_tokens (snd (cleanup_expired_tokens sweeper_world))).
Proof.
  split; [reflexivity|]. split; [right; right; left; reflexivity|].
  vm_compute. intros [H|[H|[]]]; discriminate.
Qed.

(** * More of the token functions *)

(** ** What a verification leaves alone *)

(** X1. A token presented with a purpose that none of its records
    carries is refused, and the refusal costs nothing: whatever the
    state of the client and the store, the call returns [Invalid] and
    the table is as before, so the token can still be redeemed with its
    own purpose. *)
Theorem verify_with_other_purpose_is_invalid
    (tok purp : string) (w : World) :
  (forall r, In r (auth_tokens w) -> token r = tok -> purpose r <> purp) ->
  exists w',
    verify_and_consume_token tok purp w = (Ok Invalid, w') /\
    auth_tokens w' = auth_tokens w.
Proof.
  intros P.
  destruct (verify_cases tok purp w) as [[w' [E [T _]]]|[r [rest [Hf _]]]].
  - exists w'. split; assumption.
  - exfalso. destruct (filter_head_in _ _ _ _ Hf) as [Hin Hm].
    apply matches_valid_unused in Hm. destruct Hm as [Ht [Hp _]].
    exact (P r Hin Ht Hp).
Qed.

Lemma consume_pointwise (tok : string) (t : Z) (rows : list Row) :
  Forall2
    (fun r r' =>
       token r' = token r /\ user_id r' = user_id r /\
       expires_at r' = expires_at r /\ purpose r' = purpose r /\
       (token r <> tok -> r' = r) /\
       (token r = tok -> used_at r' = Some t))
    rows (consume tok t rows).
Proof.
  induction rows as [|a rows IH]; [constructor|].
  cbn [consume map]. constructor; [|exact IH].
  destruct (String.eqb_spec (token a) tok) as [E|N].
  - cbn. repeat split; try reflexivity. intros X. contradiction.
  - repeat split; try reflexivity. intros X. contradiction.
Qed.

Lemma Forall2_same {A} (P : A -> A -> Prop) (l : list A) :
  (forall a, P a a) -> Forall2 P l l.
Proof. intros H. induction l; constructor; auto. Qed.

(** X2. Nothing but [used_at] is ever written by a verification.
    Whatever the world, the table after [verify_and_consume_token tok]
    has the rows of the table before, in their order, each with its
    token, user, expiry and purpose; the rows of other tokens are
    untouched; and a row of [tok] has either the [used_at] it had or
    now. *)
Theorem verify_only_writes_used_at (tok purp : string) (w : World) :
  Forall2
    (fun r r' =>
       token r' = token r /\ user_id r' = user_id r /\
       expires_at r' = expires_at r /\ purpose r' = purpose r /\
       (token r <> tok -> r' = r) /\
       (used_at r' = used_at r \/ used_at r' = Some (clock w)))
    (auth_tokens w)
    (auth_tokens (snd (verify_and_consume_token tok purp w))).
Proof.
  destruct (verify_cases tok purp w) as [[w' [E [T _]]]|[r [rest [_ [_ [_ [_ E]]]]]]];
    rewrite E; cbn [snd].
  - rewrite T. apply Forall2_same. intros a. repeat split; auto.
  - change (auth_tokens (set_auth_tokens ?l _)) with l.
    eapply Forall2_impl; [|apply consume_pointwise].
    intros a b [H1 [H2 [H3 [H4 [H5 H6]]]]]. repeat split; try assumption.
    destruct (String.eqb_spec (token a) tok) as [Y|N].
    + right. apply H6. exact Y.
    + left. rewrite (H5 N). reflexivity.
Qed.

(** ** The sweeper and a verification *)

Lemma sweep_keeps_redeemable (tok purp : string) (now t : Z) (rows : list Row) :
  t <= now ->
  filter (matches (valid_unused tok purp now)) (sweep t rows)
  = filter (matches (valid_unused tok purp now)) rows.
Proof.
  intros Ht. unfold sweep. induction rows as [|a rows IH]; [reflexivity|].
  cbn [filter]. destruct (Z.leb_spec t (expires_at a)) as [L|L].
  - cbn [filter]. rewrite IH. reflexivity.
  - rewrite IH.
    destruct (matches (valid_unused tok purp now) a) eqn:E; [|reflexivity].
    apply matches_valid_unused in E. destruct E as [_ [_ [E _]]]. lia.
Qed.

(** The result of a verification depends on the table only through the
    rows the [select] returns. *)
Lemma verify_result_by_selection (tok purp : string) (w v : World) :
  supabase v = supabase w -> faults v = faults w -> clock v = clock w ->
  filter (matches (valid_unused tok purp (clock v))) (auth_tokens v)
  = filter (matches (valid_unused tok purp (clock w))) (auth_tokens w) ->
  fst (verify_and_consume_token tok purp v)
  = fst (verify_and_consume_token tok purp w).
Proof.
  intros S F C E.
  destruct w as [sb rows uq fs clk g lg], v as [sb' rows' uq' fs' clk' g' lg'].
  cbn in S, F, C, E. subst sb' fs' clk'.
  unfold verify_and_consume_token, get_supabase_client, read_supabase, try_except,
    select_user_id, update_used_at, reach_store, datetime_now, bind, logger, ret.
  cbn -[matches valid_unused].
  destruct sb; [|reflexivity].
  destruct fs as [|[] fs]; cbn -[matches valid_unused]; try reflexivity;
    rewrite E;
    destruct (filter (matches (valid_unused tok purp clk)) rows) as [|r rest];
    cbn -[matches valid_unused]; try reflexivity;
    destruct fs as [|[] fs]; reflexivity.
Qed.

(** X3. The sweeper never changes what a verification answers.  Take
    the table a tick of the sweeper has left, at the time of the tick
    or later: [verify_and_consume_token] returns on it what it would
    have returned had the tick not run. *)
Theorem sweeper_does_not_change_verification
    (tok purp : string) (w0 w : World) :
  auth_tokens w = auth_tokens (snd (cleanup_expired_tokens w0)) ->
  clock w0 <= clock w ->
  fst (verify_and_consume_token tok purp w)
  = fst (verify_and_consume_token tok purp (set_auth_tokens (auth_tokens w0) w)).
Proof.
  intros T C. apply verify_result_by_selection; try reflexivity.
  change (clock (set_auth_tokens (auth_tokens w0) w)) with (clock w).
  change (auth_tokens (set_auth_tokens (auth_tokens w0) w)) with (auth_tokens w0).
  rewrite T. destruct (cleanup_table w0) as [E|E]; rewrite E; [reflexivity|].
  apply sweep_keeps_redeemable. exact C.
Qed.

(** ** The worker's loop *)

Lemma cleanup_frame (w : World) :
  (exists w',
      cleanup_expired_tokens w = (Ok tt, w') /\
      clock w' = clock w /\ supabase w' = supabase w /\
      faults w' = tl (faults w)) \/
  (exists w',
      cleanup_expired_tokens w = (Ok tt, w') /\
      clock w' = clock w /\ supabase w' = supabase w /\
      faults w' = faults w /\ supabase w = false).
Proof.
  destruct (supabase w) eqn:H.
  2:{ right. eexists. split; [apply cleanup_without_client; exact H|].
      cbn. auto. }
  left. destruct (hd false (faults w)) eqn:F.
  - eexists. split; [apply cleanup_delete_unreached; assumption|]. cbn. auto.
  - eexists. split; [apply cleanup_deleted; assumption|]. cbn. auto.
Qed.

Lemma cleanup_clock (w : World) :
  clock (snd (cleanup_expired_tokens w)) = clock w.
Proof.
  destruct (cleanup_frame w) as [[w' [E [C _]]]|[w' [E [C _]]]];
    rewrite E; exact C.
Qed.

Lemma cleanup_worker_step (n : nat) (w : World) :
  cleanup_worker (S n) w =
  cleanup_worker n
    (snd (cleanup_expired_tokens (elapse (6 * 60 * 60 * 1000000) w))).
Proof.
  cbn [cleanup_worker]. unfold bind at 1. unfold time_sleep. unfold bind at 1.
  destruct (cleanup_never_raises (elapse (6 * 60 * 60 * 1000000) w)) as [w1 E].
  rewrite E. reflexivity.
Qed.

(** X4. The loop of [cleanup_worker] sleeps six hours and runs a tick,
    round after round, and no round ends it: after any number of rounds
    it has not raised, whatever the store did.  It only ever deletes:
    every row of the table after was in the table before, and every row
    that has not expired by the time of the last tick is still there.
    When the client is in place and the store always answers, after at
    least one round no row is left that expired before the last tick. *)
Theorem cleanup_worker_only_deletes_expired (iterations : nat) (w : World) :
  exists w',
    cleanup_worker iterations w = (Ok tt, w') /\
    clock w' = clock w + Z.of_nat iterations * (6 * 60 * 60 * 1000000) /\
    (forall r, In r (auth_tokens w') -> In r (auth_tokens w)) /\
    (forall r, In r (auth_tokens w) -> clock w' <= expires_at r ->
               In r (auth_tokens w')) /\
    (supabase w = true -> faults w = [] -> (0 < iterations)%nat ->
     forall r, In r (auth_tokens w') -> clock w' <= expires_at r).
Proof.
  revert w. induction iterations as [|n IH]; intros w.
  - exists w. split; [reflexivity|]. split; [cbn; lia|].
    split; [auto|]. split; [auto|]. intros _ _ L. lia.
  - rewrite cleanup_worker_step.
    set (v := elapse (6 * 60 * 60 * 1000000) w).
    set (w1 := snd (cleanup_expired_tokens v)).
    assert (C1 : clock w1 = clock w + 6 * 60 * 60 * 1000000).
    { unfold w1. rewrite cleanup_clock. reflexivity. }
    destruct (IH w1) as [w' [E [C [Sub [Keep Gone]]]]].
    exists w'. split; [exact E|]. split; [lia|].
    assert (T : auth_tokens w1 = auth_tokens w \/
                auth_tokens w1 = sweep (clock v) (auth_tokens w)).
    { exact (cleanup_table v). }
    split; [|split].
    + intros r Hr. apply Sub in Hr.
      destruct T as [T|T]; rewrite T in Hr; [exact Hr|].
      apply sweep_In in Hr. apply Hr.
    + intros r Hr Hc. apply Keep; [|exact Hc].
      destruct T as [T|T]; rewrite T; [exact Hr|].
      apply sweep_In. split; [exact Hr|]. change (clock v) with (clock w + 6 * 60 * 60 * 1000000).
      lia.
    + intros Hs Hf _ r Hr.
      assert (E1 : cleanup_expired_tokens v
                   = (Ok tt,
                      add_log
                        (log_info_cleaned_up
                           (List.length
                              (filter (fun r => expires_at r <? clock v) (auth_tokens v))))
                        (set_auth_tokens (sweep (clock v) (auth_tokens v)) (answered v)))).
      { apply cleanup_deleted; [exact Hs|]. change (faults v) with (faults w).
        rewrite Hf. reflexivity. }
      assert (Hs1 : supabase w1 = true) by (unfold w1; rewrite E1; exact Hs).
      assert (Hf1 : faults w1 = []).
      { unfold w1. rewrite E1. cbn. change (faults v) with (faults w).
        rewrite Hf. reflexivity. }
      destruct n as [|n'].
      * cbn in E. injection E as <-.
        unfold w1 in Hr. rewrite E1 in Hr. cbn [snd] in Hr.
        change (auth_tokens (add_log _ (set_auth_tokens ?l _))) with l in Hr.
        apply sweep_In in Hr. rewrite C, C1. change (clock v) with (clock w + 6 * 60 * 60 * 1000000) in Hr.
        cbn. lia.
      * apply (Gone Hs1 Hf1); [lia|exact Hr].
Qed.

(** ** Issuance that cannot be redeemed *)

(** X6. [create_auth_token] draws one token and makes one call to the
    store; it does not try again.  When the table declares the token
    unique and the token drawn is already there, the insert is refused:
    the function returns [None], the table is as before, and exactly 32
    bytes of the random source are used. *)
Theorem create_auth_token_does_not_retry
    (uid : PyVal) (purp : string) (m : option Z) (w : World) :
  supabase w = true -> answers 1 w ->
  schema_unique_token w = true ->
  has_token (next_token w) (auth_tokens w) = true ->
  exists w',
    create_auth_token uid purp m w = (Ok None, w') /\
    auth_tokens w' = auth_tokens w /\
    cursor (rng w') = (cursor (rng w) + 32)%nat /\
    faults w' = tl (faults w).
Proof.
  intros H A U D. apply answers_S in A. destruct A as [F _].
  eexists. split; [apply create_insert_refused; try assumption|].
  - rewrite U, D. reflexivity.
  - repeat split.
Qed.

(** ** Calls that do not overlap *)

Lemma step_nth_after (pre : list Call) (c : Call) (rest : list Call) (w : World) :
  step_nth (List.length pre) (pre ++ c :: rest) w =
  (pre ++ fst (step_call c w) :: rest, snd (step_call c w)).
Proof.
  induction pre as [|a pre IH]; cbn [List.length app step_nth].
  - destruct (step_call c w). reflexivity.
  - rewrite IH. reflexivity.
Qed.

Lemma step_call_twice (tok purp : string) (w : World) :
  exists r w' c1 w1,
    verify_and_consume_token tok purp w = (Ok r, w') /\
    step_call (mkCall tok purp at_entry) w = (c1, w1) /\
    step_call c1 w1 = (mkCall tok purp (returned r), w').
Proof.
  destruct (verify_in_two_steps tok purp w) as [r [w' [E R]]].
  cbn [run step_nth] in R.
  destruct (step_call (mkCall tok purp at_entry) w) as [c1 w1] eqn:S1.
  destruct (step_call c1 w1) as [c2 w2] eqn:S2.
  injection R as -> ->.
  exists r, w', c1, w1. auto.
Qed.

(** A call run from entry to return, at its place in the list. *)
Lemma run_one_call (pre rest : list Call) (tok purp : string) (w : World)
    (schedule : list nat) :
  exists r w',
    verify_and_consume_token tok purp w = (Ok r, w') /\
    run (List.length pre :: List.length pre :: schedule)
        (pre ++ mkCall tok purp at_entry :: rest) w
    = run schedule (pre ++ mkCall tok purp (returned r) :: rest) w'.
Proof.
  destruct (step_call_twice tok purp w) as [r [w' [c1 [w1 [E [S1 S2]]]]]].
  exists r, w'. split; [exact E|].
  cbn [run]. rewrite step_nth_after, S1. cbn [fst snd].
  rewrite step_nth_after, S2. reflexivity.
Qed.

Lemma one_by_one_from (n k : nat) (pre : list Call) (tok purp : string) (w : World) :
  List.length pre = k ->
  exists post w',
    run (flat_map (fun i => [i; i]) (seq k n)) (pre ++ calls n tok purp) w
    = (pre ++ post, w') /\
    List.length post = n /\
    forallb finished post = true /\
    (List.length (filter succeeded post) <= 1)%nat /\
    ((forall r, In r (auth_tokens w) -> token r = tok -> used_at r <> None) ->
     filter succeeded post = []) /\
    (supabase w = true -> faults w = [] -> (0 < n)%nat ->
     (exists r, In r (auth_tokens w) /\ redeemable tok purp (clock w) r) ->
     List.length (filter succeeded post) = 1%nat).
Proof.
  revert k pre w. induction n as [|n IH]; intros k pre w Hk.
  - exists [], w. cbn. rewrite app_nil_r. repeat split; auto; intros; lia.
  - cbn [seq flat_map app]. unfold calls. cbn [repeat]. fold (calls n tok purp).
    subst k.
    destruct (run_one_call pre (calls n tok purp) tok purp w
                (flat_map (fun i => [i; i]) (seq (S (List.length pre)) n)))
      as [r [w1 [E R]]].
    rewrite R.
    replace (pre ++ mkCall tok purp (returned r) :: calls n tok purp)
      with ((pre ++ [mkCall tok purp (returned r)]) ++ calls n tok purp)
      by (rewrite <- app_assoc; reflexivity).
    destruct (IH (S (List.length pre)) (pre ++ [mkCall tok purp (returned r)]) w1)
      as [post [w' [R' [L [Fin [Le [Used One]]]]]]].
    { rewrite length_app. cbn. lia. }
    exists (mkCall tok purp (returned r) :: post), w'.
    split; [rewrite R', <- app_assoc; reflexivity|].
    split; [cbn; lia|]. split; [cbn; exact Fin|].
    destruct (verify_cases tok purp w)
      as [[w2 [E2 [T2 _]]]|[r0 [rest [Hf [Hs [F1 [F2 E2]]]]]]];
      rewrite E in E2; injection E2 as -> ->.
    + cbn [filter succeeded pc]. split; [exact Le|]. split.
      * intros U. apply Used. rewrite T2. exact U.
      * intros Hs Hfl _ [r1 [Hin Hr]]. exfalso.
        destruct (verify_cases tok purp w)
          as [[w3 [E3 [_ C]]]|[r0 [rest [_ [_ [_ [_ E3]]]]]]];
          rewrite E in E3; [|discriminate].
        destruct C as [C|[C|[C|C]]].
        -- congruence.
        -- rewrite Hfl in C. discriminate.
        -- apply matches_valid_unused in Hr.
           rewrite (proj1 (filter_nil_none _ _) C r1 Hin) in Hr. discriminate.
        -- unfold answered in C. cbn in C. rewrite Hfl in C. discriminate.
    + assert (U : forall r, In r (auth_tokens
                           (set_auth_tokens (consume tok (clock w) (auth_tokens w))
                              (answered (answered w)))) ->
                         token r = tok -> used_at r <> None).
      { intros r Hin Ht. rewrite (consume_used _ _ _ _ Hin Ht). discriminate. }
      specialize (Used U). cbn [filter succeeded pc]. rewrite Used.
      split; [cbn; lia|]. split.
      * intros U0. exfalso. destruct (filter_head_in _ _ _ _ Hf) as [Hin Hm].
        apply matches_valid_unused in Hm. destruct Hm as [Ht [_ [_ Hn]]].
        exact (U0 r0 Hin Ht Hn).
      * intros _ _ _ _. reflexivity.
Qed.

(** X7. Calls of [verify_and_consume_token] for one token and purpose
    that run one after the other, each finished before the next starts,
    are held to one success: whatever the table, the clock and the
    store do, every call returns and at most one of them is valid.
    With the client in place, a store that always answers and a record
    to redeem, exactly one is. *)
Theorem calls_one_by_one_succeed_at_most_once
    (n : nat) (tok purp : string) (w : World) :
  exists post w',
    run (one_by_one n) (calls n tok purp) w = (post, w') /\
    List.length post = n /\
    forallb finished post = true /\
    (List.length (filter succeeded post) <= 1)%nat /\
    (supabase w = true -> faults w = [] -> (0 < n)%nat ->
     (exists r, In r (auth_tokens w) /\ redeemable tok purp (clock w) r) ->
     List.length (filter succeeded post) = 1%nat).
Proof.
  destruct (one_by_one_from n 0 [] tok purp w eq_refl)
    as [post [w' [R [L [Fin [Le [_ One]]]]]]].
  exists post, w'. unfold one_by_one. cbn [app] in R. auto.
Qed.

(** ** The further statements at the worlds of the examples *)

Lemma verify_with_other_purpose_is_invalid_witness :
  (forall r, In r (auth_tokens pending_world) -> token r = example_token ->
             purpose r <> "login") /\
  exists w',
    verify_and_consume_token example_token "login" pending_world = (Ok Invalid, w') /\
    auth_tokens w' = auth_tokens pending_world.
Proof.
  assert (P : forall r, In r (auth_tokens pending_world) -> token r = example_token ->
                        purpose r <> "login").
  { intros r [<-|[]] _. discriminate. }
  split; [exact P|].
  apply (verify_with_other_purpose_is_invalid example_token "login" pending_world P).
Defined.

Lemma sweeper_does_not_change_verification_witness :
  clock sweeper_world <= clock (snd (cleanup_expired_tokens sweeper_world)) /\
  fst (verify_and_consume_token "t2" "login"
         (snd (cleanup_expired_tokens sweeper_world)))
  = fst (verify_and_consume_token "t2" "login"
           (set_auth_tokens (auth_tokens sweeper_world)
              (snd (cleanup_expired_tokens sweeper_world)))).
Proof.
  split; [discriminate|].
  apply (sweeper_does_not_change_verification "t2" "login" sweeper_world
           (snd (cleanup_expired_tokens sweeper_world)) eq_refl).
  discriminate.
Defined.

Lemma cleanup_worker_only_deletes_expired_witness :
  supabase sweeper_world = true /\ faults sweeper_world = [] /\ (0 < 1)%nat /\
  exists w',
    cleanup_worker 1 sweeper_world = (Ok tt, w') /\
    forall r, In r (auth_tokens w') -> clock w' <= expires_at r.
Proof.
  split; [reflexivity|]. split; [reflexivity|]. split; [constructor|].
  destruct (cleanup_worker_only_deletes_expired 1 sweeper_world)
    as [w' [E [_ [_ [_ G]]]]].
  exists w'. split; [exact E|]. apply G; [reflexivity|reflexivity|constructor].
Defined.

Lemma issued_expired_is_invalid_witness :
  -1 <= 0 /\ 0 <= 0 /\ supabase fresh_world = true /\ answers 2 fresh_world /\
  has_token (next_token fresh_world) (auth_tokens fresh_world) = false /\
  exists tok w1 w2,
    create_auth_token (PyStr "user-42") "balance-reveal" (Some (-1)) fresh_world
    = (Ok (Some tok), w1) /\
    verify_and_consume_token tok "balance-reveal" (elapse 0 w1) = (Ok Invalid, w2) /\
    auth_tokens w2 = auth_tokens w1.
Proof.
  split; [discriminate|]. split; [discriminate|]. split; [reflexivity|].
  split; [reflexivity|]. split; [reflexivity|].
  apply (issued_expired_is_invalid (PyStr "user-42") "balance-reveal" (-1) 0
           fresh_world); try reflexivity; discriminate.
Defined.

Lemma create_auth_token_does_not_retry_witness :
  supabase pending_world = true /\ answers 1 pending_world /\
  schema_unique_token pending_world = true /\
  has_token (next_token pending_world) (auth_tokens pending_world) = true /\
  exists w',
    create_auth_token (PyStr "user-43") "balance-reveal" None pending_world
    = (Ok None, w') /\
    auth_tokens w' = auth_tokens pending_world.
Proof.
  split; [reflexivity|]. split; [reflexivity|]. split; [reflexivity|].
  split; [reflexivity|].
  destruct (create_auth_token_does_not_retry (PyStr "user-43") "balance-reveal" None
              pending_world eq_refl eq_refl eq_refl eq_refl) as [w' [E [T _]]].
  exists w'. split; assumption.
Defined.

Lemma calls_one_by_one_succeed_at_most_once_witness :
  supabase pending_world = true /\ faults pending_world = [] /\ (0 < 3)%nat /\
  (exists r, In r (auth_tokens pending_world) /\
             redeemable example_token "balance-reveal" (clock pending_world) r) /\
  exists post w',
    run (one_by_one 3) (calls 3 example_token "balance-reveal") pending_world
    = (post, w') /\
    List.length (filter succeeded post) = 1%nat.
Proof.
  assert (R : exists r, In r (auth_tokens pending_world) /\
                        redeemable example_token "balance-reveal"
                          (clock pending_world) r).
  { exists pending_row. split; [left; reflexivity|]. repeat split. }
  split; [reflexivity|]. split; [reflexivity|]. split; [repeat constructor|].
  split; [exact R|].
  destruct (calls_one_by_one_succeed_at_most_once 3 example_token "balance-reveal"
              pending_world) as [post [w' [E [_ [_ [_ One]]]]]].
  exists post, w'. split; [exact E|].
  apply One; [reflexivity|reflexivity|repeat constructor|exact R].
Defined.


(** * The routes and their helpers *)

Import Api.

Ltac api_unfold :=
  unfold get_maintenance_status, get_user_balance, get_user_balance_public,
    get_secure_user_balance, balance_from_supabase_or_external, get_user_assets,
    get_secure_collectible, get_collectibles, get_secure_price_history,
    external_get, make_external_api_request, verify_vrno_api_key,
    Api.get_supabase_client, execute, item, send, try_catch, try_catch2, then_,
    pure, throw, ask, log_line, any_exception.

(** ** The API key *)

Lemma py_or_cases (a b : option string) :
  (exists s, a = Some s /\ s <> "" /\ py_or a b = Some s) \/
  ((a = None \/ a = Some "") /\ py_or a b = b).
Proof.
  destruct a as [[|c s]|]; cbn.
  - right. auto.
  - left. exists (String c s). repeat split. discriminate.
  - right. auto.
Qed.

(** X8. [verify_vrno_api_key] always answers, and asks neither the
    store nor the external API.  The key it compares is the
    [vrno-api-key] header unless that header is missing or empty, in
    which case it is the [x-api-key] header.  With [VRNO_API_KEY] set to
    [k] the request is accepted exactly when that key is [k]; a request
    with the right [x-api-key] and another, non-empty [vrno-api-key] is
    refused.  With [VRNO_API_KEY] not set the request is accepted
    exactly when it presents no key at all. *)
Theorem verify_vrno_api_key_accepts_iff
    (headers : string -> option string) (env : Env) (tr : Trace) :
  exists ok tr',
    verify_vrno_api_key headers env tr = (Done ok, tr') /\
    queried tr' = queried tr /\ requested tr' = requested tr /\
    (forall k, VRNO_API_KEY env = Some k ->
       (ok = true <->
        (headers "vrno-api-key" = Some k /\ k <> "") \/
        ((headers "vrno-api-key" = None \/ headers "vrno-api-key" = Some "") /\
         headers "x-api-key" = Some k))) /\
    (VRNO_API_KEY env = None ->
       (ok = true <->
        (headers "vrno-api-key" = None \/ headers "vrno-api-key" = Some "") /\
        headers "x-api-key" = None)).
Proof.
  api_unfold. eexists _, _. split; [reflexivity|].
  split; [reflexivity|]. split; [reflexivity|].
  destruct (py_or_cases (headers "vrno-api-key") (headers "x-api-key"))
    as [[s [Ha [Hs E]]]|[Ha E]]; rewrite E; split.
  - intros k Hk. rewrite Hk. cbn. rewrite String.eqb_eq. split.
    + intros <-. left. auto.
    + intros [[X _]|[[X|X] _]]; congruence.
  - intros Hk. rewrite Hk. cbn. split; [discriminate|].
    intros [[X|X] _]; congruence.
  - intros k Hk. rewrite Hk.
    destruct (headers "x-api-key") as [x|]; cbn; [rewrite String.eqb_eq|].
    + split.
      * intros <-. right. auto.
      * intros [[X Y]|[_ X]]; [|congruence].
        destruct Ha as [Ha|Ha]; rewrite Ha in X; [discriminate|].
        injection X as <-. contradiction.
    + split; [discriminate|].
      intros [[X Y]|[_ X]]; [|discriminate].
      destruct Ha as [Ha|Ha]; rewrite Ha in X; [discriminate|].
      injection X as <-. contradiction.
  - intros Hk. rewrite Hk.
    destruct (headers "x-api-key") as [x|]; cbn.
    + split; [discriminate|]. intros [_ X]. discriminate.
    + split; auto.
Qed.

(** X9. The log line of [verify_vrno_api_key] shows the first ten
    characters of the key presented and nothing of the rest: two
    requests whose keys agree on their first ten characters and get the
    same verdict leave the same trace. *)
Theorem verify_vrno_api_key_logs_ten_characters
    (h1 h2 : string -> option string) (k1 k2 : string) (env : Env) (tr : Trace) :
  py_or (h1 "vrno-api-key") (h1 "x-api-key") = Some k1 ->
  py_or (h2 "vrno-api-key") (h2 "x-api-key") = Some k2 ->
  k1 <> "" -> k2 <> "" ->
  substring 0 10 k1 = substring 0 10 k2 ->
  fst (verify_vrno_api_key h1 env tr) = fst (verify_vrno_api_key h2 env tr) ->
  snd (verify_vrno_api_key h1 env tr) = snd (verify_vrno_api_key h2 env tr).
Proof.
  intros E1 E2 N1 N2 P. api_unfold. rewrite E1, E2. cbn [fst snd].
  generalize (option_string_eqb (Some k1) (VRNO_API_KEY env)),
             (option_string_eqb (Some k2) (VRNO_API_KEY env)).
  intros v1 v2 V. injection V as ->.
  destruct k1 as [|c1 s1]; [contradiction|].
  destruct k2 as [|c2 s2]; [contradiction|].
  cbn [key_truthy]. rewrite P. reflexivity.
Qed.

(** ** The external API *)

Lemma headers_get_set_same (k : string) (v : option string)
    (d : list (string * option string)) :
  headers_get k (headers_set k v d) = Some v.
Proof.
  induction d as [|[k' v'] d IH]; cbn.
  - rewrite String.eqb_refl. reflexivity.
  - destruct (String.eqb_spec k' k) as [E|N]; cbn.
    + rewrite String.eqb_refl. reflexivity.
    + apply String.eqb_neq in N. rewrite N. exact IH.
Qed.

Lemma headers_get_set_other (k k0 : string) (v : option string)
    (d : list (string * option string)) :
  k0 <> k -> headers_get k0 (headers_set k v d) = headers_get k0 d.
Proof.
  intros N. induction d as [|[k' v'] d IH]; cbn.
  - destruct (String.eqb_spec k k0); [congruence|reflexivity].
  - destruct (String.eqb_spec k' k) as [E|N']; cbn.
    + subst k'. destruct (String.eqb_spec k k0); [congruence|reflexivity].
    + destruct (String.eqb_spec k' k0); [reflexivity|exact IH].
Qed.

(** X10. A method that is not one of [GET], [POST], [PUT], [DELETE],
    written so, makes [make_external_api_request] raise [ValueError]
    before anything is sent; the error is not logged. *)
Theorem unsupported_method_sends_nothing
    (endpoint method : string) (body : option Json)
    (headers : list (string * option string)) (env : Env) (tr : Trace) :
  method <> "GET" -> method <> "POST" -> method <> "PUT" -> method <> "DELETE" ->
  make_external_api_request endpoint method body headers env tr
  = (Raised (ValueError ("Unsupported HTTP method: " ++ method)), tr).
Proof.
  intros G P U D. api_unfold. unfold request_for.
  apply String.eqb_neq in G, P, U, D. rewrite G, P, U, D. cbn. reflexivity.
Qed.

Lemma request_for_shape (method url : string) (body : option Json)
    (headers : list (string * option string)) (req : HttpRequest) :
  request_for method url body headers = Some req ->
  h_method req = method /\ h_url req = url /\ h_headers req = headers /\
  h_timeout req = 30 /\
  h_json req = (if String.eqb method "POST" || String.eqb method "PUT"
                then body else None).
Proof.
  unfold request_for.
  destruct (String.eqb_spec method "GET") as [->|_];
    [intros E; injection E as <-; cbn; auto|].
  destruct (String.eqb_spec method "POST") as [->|_];
    [intros E; injection E as <-; cbn; auto|].
  destruct (String.eqb_spec method "PUT") as [->|_];
    [intros E; injection E as <-; cbn; auto|].
  destruct (String.eqb_spec method "DELETE") as [->|_];
    [intros E; injection E as <-; cbn; auto|].
  discriminate.
Qed.

(** X11. [make_external_api_request] sends at most one request and
    asks the store nothing.  The request goes to [EXTERNAL_API_URL]
    followed by the endpoint, with a time-out of 30 seconds; its
    [vrno-api-key] header is [VRNO_API_KEY], whatever the caller had put
    there, and the caller's other headers are as given; the body goes
    with [POST] and [PUT] only. *)
Theorem external_request_carries_the_key
    (endpoint method : string) (body : option Json)
    (headers : list (string * option string)) (env : Env) (tr : Trace) :
  let tr' := snd (make_external_api_request endpoint method body headers env tr) in
  queried tr' = queried tr /\
  (requested tr' = requested tr \/
   exists req,
     requested tr' = requested tr ++ [req] /\
     h_method req = method /\
     h_url req = (EXTERNAL_API_URL env ++ endpoint)%string /\
     h_timeout req = 30 /\
     headers_get "vrno-api-key" (h_headers req) = Some (VRNO_API_KEY env) /\
     (forall k, k <> "vrno-api-key" ->
                headers_get k (h_headers req) = headers_get k headers) /\
     h_json req = (if String.eqb method "POST" || String.eqb method "PUT"
                   then body else None)).
Proof.
  api_unfold.
  destruct (request_for method (EXTERNAL_API_URL env ++ endpoint)%string body
              (headers_set "vrno-api-key" (VRNO_API_KEY env) headers))
    as [req|] eqn:R.
  2:{ cbn. auto. }
  destruct (request_for_shape _ _ _ _ _ R) as [Hm [Hu [Hh [Ht Hj]]]].
  assert (Q : exists req0,
             requested tr ++ [req] = requested tr ++ [req0] /\
             h_method req0 = method /\
             h_url req0 = (EXTERNAL_API_URL env ++ endpoint)%string /\
             h_timeout req0 = 30 /\
             headers_get "vrno-api-key" (h_headers req0) = Some (VRNO_API_KEY env) /\
             (forall k, k <> "vrno-api-key" ->
                        headers_get k (h_headers req0) = headers_get k headers) /\
             h_json req0 = (if String.eqb method "POST" || String.eqb method "PUT"
                            then body else None)).
  { exists req. rewrite Hh. repeat split; auto.
    - apply headers_get_set_same.
    - intros k Hk. apply headers_get_set_other. exact Hk. }
  destruct (external env req) as [msg|st [j|]]; cbn.
  - auto.
  - destruct ((400 <=? st) && (st <? 600)); cbn; auto.
  - destruct ((400 <=? st) && (st <? 600)); cbn; auto.
    destruct (json_error_is_request_exception env); cbn; auto.
Qed.

(** The answer of the external API to a call with the defaults does not
    depend on what was done before; the call asks the store nothing. *)
Lemma external_get_frame (endpoint : string) (env : Env) (tr : Trace) :
  fst (external_get endpoint env tr) = fst (external_get endpoint env no_trace) /\
  queried (snd (external_get endpoint env tr)) = queried tr.
Proof.
  api_unfold. unfold request_for. cbn.
  destruct (external env _) as [msg|st [j|]]; cbn; auto;
    destruct ((400 <=? st) && (st <? 600)); cbn; auto;
    destruct (json_error_is_request_exception env); cbn; auto.
Qed.

Lemma external_get_frame_eq (endpoint : string) (env : Env) (tr : Trace) :
  external_get endpoint env tr =
  (fst (external_get endpoint env no_trace),
   mkTrace (logged tr ++ logged (snd (external_get endpoint env no_trace)))
           (queried tr)
           (requested tr ++ requested (snd (external_get endpoint env no_trace)))).
Proof.
  api_unfold. unfold request_for. cbn.
  destruct (external env _) as [msg|st [j|]]; cbn.
  - reflexivity.
  - destruct ((400 <=? st) && (st <? 600)); cbn; try reflexivity.
    rewrite app_nil_r. reflexivity.
  - destruct ((400 <=? st) && (st <? 600)); cbn; try reflexivity.
    destruct (json_error_is_request_exception env); cbn; try reflexivity.
    rewrite app_nil_r. reflexivity.
Qed.

Lemma external_get_sends_at_most_one (endpoint : string) (env : Env) :
  (List.length (requested (snd (external_get endpoint env no_trace))) <= 1)%nat.
Proof.
  api_unfold. unfold request_for. cbn.
  destruct (external env _) as [msg|st [j|]]; cbn; try lia;
    destruct ((400 <=? st) && (st <? 600)); cbn; try lia;
    destruct (json_error_is_request_exception env); cbn; lia.
Qed.

Ltac by_external :=
  match goal with
  | |- context [external_get ?e ?env ?t] =>
      rewrite <- (proj1 (external_get_frame e env t));
      destruct (external_get e env t) as [[?|?] ?]; reflexivity
  end.

Ltac frame_external :=
  repeat match goal with
  | |- context [external_get ?e ?env ?t] =>
      lazymatch t with
      | no_trace => fail
      | _ => rewrite (external_get_frame_eq e env t)
      end
  end.

(** Closes a goal in which all that is left to look at is the answer of
    the external API. *)
Ltac settle_external :=
  cbn -[external_get append];
  first
    [ reflexivity
    | frame_external;
      match goal with
      | |- context [external_get ?e ?env no_trace] =>
          destruct (external_get e env no_trace) as [[?|?] ?]
      end;
      cbn -[append]; reflexivity ].

(** Closes the account of a route at the end of one of its paths. *)
Ltac answer_found :=
  split; [reflexivity|]; cbn -[append];
  split; [first [left; reflexivity | right; reflexivity]|];
  split; [first [reflexivity
                | rewrite app_nil_r; reflexivity
                | rewrite <- app_assoc; reflexivity]|];
  split; [cbn; lia|];
  split; [first [reflexivity
                | rewrite app_nil_r; reflexivity
                | rewrite <- app_assoc; reflexivity]|];
  cbn; first [lia | assumption].

Ltac route_unfold :=
  unfold get_maintenance_status, get_user_balance, get_user_balance_public,
    get_secure_user_balance, balance_from_supabase_or_external, get_user_assets,
    get_secure_collectible, get_collectibles, get_secure_price_history,
    Api.get_supabase_client, execute, item, try_catch, try_catch2, then_,
    pure, throw, ask, log_line, any_exception.

(** ** The maintenance flag *)

(** X12. [get_maintenance_status] always answers, with status 200 or
    500, and never asks the external API.  It reports maintenance
    exactly when the client is there and the first row the store
    returns for [maintenance_mode] has the string [true] as its
    [config_value]; when the client is missing, the store fails or the
    row has no [config_value], the status is 500 and the site is
    reported as not in maintenance. *)
Theorem maintenance_status_outcome (env : Env) (tr : Trace) :
  exists mode code tr',
    get_maintenance_status env tr
    = (Done (mkResponse (maintenance_body mode (now_isoformat env)) code), tr') /\
    requested tr' = requested tr /\
    (code = 200 \/ code = 500) /\
    (code = 500 -> mode = false) /\
    (mode = true <->
     Api.supabase env = true /\
     exists r rest,
       store env maintenance_query = data (r :: rest) /\
       dict_get "config_value" r = Some (JStr "true")) /\
    (code = 200 <->
     Api.supabase env = true /\
     (store env maintenance_query = data [] \/
      exists r rest v,
        store env maintenance_query = data (r :: rest) /\
        dict_get "config_value" r = Some v)).
Proof.
  route_unfold.
  destruct (Api.supabase env) eqn:S; cbn.
  2:{ eexists _, _, _. split; [reflexivity|]. split; [reflexivity|].
      split; [auto|]. split; [auto|].
      split; (split; [discriminate|intros [X _]; discriminate]). }
  destruct (store env maintenance_query) as [[|r rest]|msg] eqn:Q; cbn.
  - eexists _, _, _. split; [reflexivity|]. split; [reflexivity|].
    split; [auto|]. split; [discriminate|].
    split; [split; [discriminate|intros [_ [r [rest [X _]]]]; discriminate]|].
    split; auto.
  - destruct (dict_get "config_value" r) as [v|] eqn:V; cbn.
    + eexists _, _, _. split; [reflexivity|]. split; [reflexivity|].
      split; [auto|]. split; [discriminate|].
      split.
      * split.
        -- intros J. split; [reflexivity|]. exists r, rest. split; [reflexivity|].
           destruct v; try discriminate. cbn in J. apply String.eqb_eq in J.
           subst. exact V.
        -- intros [_ [r' [rest' [X Y]]]]. injection X as <- <-.
           rewrite V in Y. injection Y as ->. reflexivity.
      * split; [|reflexivity]. intros _. split; [reflexivity|].
        right. exists r, rest, v. auto.
    + eexists _, _, _. split; [reflexivity|]. split; [reflexivity|].
      split; [auto|]. split; [auto|].
      split.
      * split; [discriminate|].
        intros [_ [r' [rest' [X Y]]]]. injection X as <- <-. congruence.
      * split; [discriminate|].
        intros [_ [X|[r' [rest' [v [X Y]]]]]]; [discriminate|].
        injection X as <- <-. congruence.
  - eexists _, _, _. split; [reflexivity|]. split; [reflexivity|].
    split; [auto|]. split; [auto|].
    split.
    + split; [discriminate|]. intros [_ [r' [rest' [X _]]]]. discriminate.
    + split; [discriminate|].
      intros [_ [X|[r' [rest' [v [X _]]]]]]; discriminate.
Qed.

(** ** The balance routes *)

(** X13. When the client is there and the store has the user and a
    balance for it, [get_user_balance] answers with that balance, the
    user's id and the name asked for, and the external API is not
    called. *)
Theorem balance_comes_from_supabase_when_present
    (username : string) (env : Env) (tr : Trace)
    (u b : Dict) (us bs : list Dict) (uid bal : Json) :
  Api.supabase env = true ->
  store env (users_by_name username) = data (u :: us) ->
  dict_get "id" u = Some uid ->
  store env (balance_of uid) = data (b :: bs) ->
  dict_get "balance" b = Some bal ->
  exists tr',
    get_user_balance username env tr
    = (Done (mkResponse
               (JDict [("balance", bal); ("user_id", uid); ("username", JStr username)])
               200), tr') /\
    requested tr' = requested tr.
Proof.
  intros S U I B L. route_unfold. rewrite S. cbn. rewrite U. cbn. rewrite I. cbn.
  rewrite B. cbn. rewrite L. cbn. eexists. split; reflexivity.
Qed.

(** X14. An error of the store is not followed by a call of the
    external API: when the client is there and the store refuses the
    query for the user, or the query for the balance, [get_user_balance]
    answers 500 with [Failed to fetch balance] and has sent nothing. *)
Theorem balance_store_error_is_final
    (username msg : string) (env : Env) (tr : Trace) :
  Api.supabase env = true ->
  (store env (users_by_name username) = refused msg \/
   exists u us uid,
     store env (users_by_name username) = data (u :: us) /\
     dict_get "id" u = Some uid /\
     store env (balance_of uid) = refused msg) ->
  exists tr',
    get_user_balance username env tr
    = (Done (mkResponse (JDict [("error", JStr "Failed to fetch balance")]) 500), tr') /\
    requested tr' = requested tr.
Proof.
  intros S [U|[u [us [uid [U [I B]]]]]]; route_unfold; rewrite S; cbn; rewrite U; cbn.
  - eexists. split; reflexivity.
  - rewrite I. cbn. rewrite B. cbn. eexists. split; reflexivity.
Qed.

(** X15. When there is no client, no such user in the store, or no
    balance for the user, [get_user_balance] passes on what the external
    API answers for [/api/user/balance/<username>]: its JSON with status
    200, or 500 with [Failed to fetch balance] when the call fails. *)
Theorem balance_falls_back_to_the_external_api
    (username : string) (env : Env) (tr : Trace) :
  (Api.supabase env = false \/
   store env (users_by_name username) = data [] \/
   exists u us uid,
     store env (users_by_name username) = data (u :: us) /\
     dict_get "id" u = Some uid /\
     store env (balance_of uid) = data []) ->
  fst (get_user_balance username env tr)
  = Done (match fst (external_get ("/api/user/balance/" ++ username) env no_trace) with
          | Done j => mkResponse j 200
          | Raised _ => mkResponse (JDict [("error", JStr "Failed to fetch balance")]) 500
          end).
Proof.
  intros C. route_unfold.
  destruct C as [S|C].
  { rewrite S. cbn -[external_get append]. by_external. }
  destruct (Api.supabase env); [|cbn -[external_get append]; by_external].
  destruct C as [U|[u [us [uid [U [I B]]]]]]; cbn -[external_get append]; rewrite U;
    cbn -[external_get append].
  - by_external.
  - rewrite I. cbn -[external_get append]. rewrite B. cbn -[external_get append].
    by_external.
Qed.


(** X16. The routes [/api/secure/token/balance/<username>],
    [/api/token/balance/<username>] and [/api/user/balance/<username>]
    answer alike: for every user name and every state of the store and
    of the external API the three responses are the same, and so are
    the queries made and the requests sent.  The secure route checks
    nothing more than the other two. *)
Theorem secure_balance_route_is_the_public_one
    (username : string) (env : Env) (tr : Trace) :
  fst (get_secure_user_balance username env tr)
  = fst (get_user_balance username env tr) /\
  queried (snd (get_secure_user_balance username env tr))
  = queried (snd (get_user_balance username env tr)) /\
  requested (snd (get_secure_user_balance username env tr))
  = requested (snd (get_user_balance username env tr)) /\
  get_user_balance_public username env tr = get_user_balance username env tr.
Proof.
  split; [|split; [|split; [|reflexivity]]];
    route_unfold; cbn -[external_get append];
    destruct (Api.supabase env); try settle_external;
    destruct (store env (users_by_name username)) as [[|u us]|msg];
    try settle_external;
    destruct (dict_get "id" u) as [uid|]; try settle_external;
    destruct (store env (balance_of uid)) as [[|b bs]|msg];
    try settle_external;
    destruct (dict_get "balance" b) as [bal|]; settle_external.
Qed.
(*END*)

(** X17. [get_user_balance] never raises: whatever the store and the
    external API do, it answers, with status 200 or with status 500 and
    the body [{"error": "Failed to fetch balance"}]; it asks the store
    at most twice and the external API at most once. *)
Theorem balance_route_always_answers
    (username : string) (env : Env) (tr : Trace) :
  exists resp tr' qs rs,
    get_user_balance username env tr = (Done resp, tr') /\
    (Api.status resp = 200 \/
     resp = mkResponse (JDict [("error", JStr "Failed to fetch balance")]) 500) /\
    queried tr' = queried tr ++ qs /\ (List.length qs <= 2)%nat /\
    requested tr' = requested tr ++ rs /\ (List.length rs <= 1)%nat.
Proof.
  pose proof (external_get_sends_at_most_one
                ("/api/user/balance/" ++ username) env) as L0.
  route_unfold; cbn -[external_get append].
  destruct (Api.supabase env).
  2:{ cbn -[external_get append]. frame_external.
      destruct (external_get ("/api/user/balance/" ++ username) env no_trace)
        as [[j|e] t0]; cbn -[append] in *;
        eexists _, _, [], _; answer_found. }
  destruct (store env (users_by_name username)) as [[|u us]|msg];
    cbn -[external_get append].
  - frame_external.
    destruct (external_get ("/api/user/balance/" ++ username) env no_trace)
      as [[j|e] t0]; cbn -[append] in *;
      eexists _, _, [_], _; answer_found.
  - destruct (dict_get "id" u) as [uid|]; cbn -[external_get append].
    2:{ eexists _, _, [_], []. answer_found. }
    destruct (store env (balance_of uid)) as [[|b bs]|msg];
      cbn -[external_get append].
    + frame_external.
      destruct (external_get ("/api/user/balance/" ++ username) env no_trace)
        as [[j|e] t0]; cbn -[append] in *;
        eexists _, _, [_; _], _; answer_found.
    + destruct (dict_get "balance" b) as [bal|]; cbn -[append];
        eexists _, _, [_; _], []; answer_found.
    + eexists _, _, [_; _], []. answer_found.
  - eexists _, _, [_], []. answer_found.
Qed.

(** ** The assets route *)

(** X18. [get_user_assets] always answers and never calls the external
    API.  Its status is 404 exactly when the client is there and the
    store knows no user of that name; it is 200 exactly when the store
    gives the user, with an id, and answers the query for the assets,
    and the body is then the rows of that answer as they came; in every
    other case (no client, an error of the store, a user row without
    id) it is 500.  With 404 and 500 the body is the empty list. *)
Theorem user_assets_status (username : string) (env : Env) (tr : Trace) :
  exists resp tr',
    get_user_assets username env tr = (Done resp, tr') /\
    requested tr' = requested tr /\
    (Api.status resp = 200 \/ Api.status resp = 404 \/ Api.status resp = 500) /\
    (Api.status resp <> 200 -> Api.body resp = JList []) /\
    (Api.status resp = 404 <->
     Api.supabase env = true /\ store env (users_by_name username) = data []) /\
    (Api.status resp = 200 <->
     Api.supabase env = true /\
     exists u us uid rows,
       store env (users_by_name username) = data (u :: us) /\
       dict_get "id" u = Some uid /\
       store env (assets_of uid) = data rows /\
       Api.body resp = JList (map JDict rows)).
Proof.
  route_unfold; cbn -[append].
  destruct (Api.supabase env); cbn -[append].
  2:{ eexists _, _. split; [reflexivity|]. cbn. split; [reflexivity|].
      split; [auto|]. split; [reflexivity|].
      split; (split; [discriminate|intros [X _]; discriminate]). }
  destruct (store env (users_by_name username)) as [[|u us]|msg] eqn:U; cbn -[append].
  - eexists _, _. split; [reflexivity|]. cbn. split; [reflexivity|].
    split; [auto|]. split; [reflexivity|]. split; [split; auto|].
    split; [discriminate|]. intros [_ [u [us [uid [rows [X _]]]]]]. discriminate.
  - destruct (dict_get "id" u) as [uid|] eqn:I; cbn -[append].
    2:{ eexists _, _. split; [reflexivity|]. cbn. split; [reflexivity|].
        split; [auto|]. split; [reflexivity|].
        split; [split; [discriminate|intros [_ X]; discriminate]|].
        split; [discriminate|].
        intros [_ [u' [us' [uid [rows [X [Y _]]]]]]]. injection X as <- <-.
        congruence. }
    destruct (store env (assets_of uid)) as [rows|msg] eqn:A; cbn -[append].
    + eexists _, _. split; [reflexivity|]. cbn. split; [reflexivity|].
      split; [auto|]. split; [intros X; contradiction|].
      split; [split; [discriminate|intros [_ X]; discriminate]|].
      split; [|reflexivity]. intros _. split; [reflexivity|].
      exists u, us, uid, rows. auto.
    + eexists _, _. split; [reflexivity|]. cbn. split; [reflexivity|].
      split; [auto|]. split; [reflexivity|].
      split; [split; [discriminate|intros [_ X]; discriminate]|].
      split; [discriminate|].
      intros [_ [u' [us' [uid' [rows [X [Y [Z _]]]]]]]]. injection X as <- <-.
      rewrite I in Y. injection Y as <-. congruence.
  - eexists _, _. split; [reflexivity|]. cbn. split; [reflexivity|].
    split; [auto|]. split; [reflexivity|].
    split; [split; [discriminate|intros [_ X]; discriminate]|].
    split; [discriminate|]. intros [_ [u [us [uid [rows [X _]]]]]]. discriminate.
Qed.

(** ** One collectible *)

(** X19. [get_secure_collectible] asks the external API first: when it
    answers with JSON, that JSON is the response, with status 200, and
    the store is not asked. *)
Theorem secure_collectible_prefers_the_external_api
    (collectible_id : string) (env : Env) (tr : Trace) (j : Json) :
  fst (external_get ("/api/collectible/" ++ collectible_id) env no_trace) = Done j ->
  exists tr',
    get_secure_collectible collectible_id env tr = (Done (mkResponse j 200), tr') /\
    queried tr' = queried tr.
Proof.
  intros E. route_unfold. cbn -[external_get append]. frame_external.
  destruct (external_get ("/api/collectible/" ++ collectible_id) env no_trace)
    as [[j0|e] t0]; cbn -[append] in *; [|discriminate].
  injection E as ->. eexists. split; reflexivity.
Qed.

(** X20. [get_secure_collectible] always answers.  It answers 404
    exactly when the call of the external API failed with an error that
    is a [RequestException] and the store has nothing to give: the
    client is missing, or the store answers the query for the
    collectible with no row.  An error of another class from the
    external call gives 500 without the store being asked. *)
Theorem secure_collectible_not_found_iff
    (collectible_id : string) (env : Env) (tr : Trace) :
  exists resp tr',
    get_secure_collectible collectible_id env tr = (Done resp, tr') /\
    (Api.status resp = 404 <->
     (exists e,
         fst (external_get ("/api/collectible/" ++ collectible_id) env no_trace)
         = Raised e /\ request_exception env e = true) /\
     (Api.supabase env = false \/
      store env (collectible_by_id collectible_id) = data [])) /\
    (forall e,
        fst (external_get ("/api/collectible/" ++ collectible_id) env no_trace)
        = Raised e ->
        request_exception env e = false ->
        Api.status resp = 500 /\ queried tr' = queried tr).
Proof.
  route_unfold. cbn -[external_get append request_exception]. frame_external.
  destruct (external_get ("/api/collectible/" ++ collectible_id) env no_trace)
    as [[j0|e] t0]; cbn -[append request_exception].
  { eexists _, _. split; [reflexivity|]. cbn. split.
    - split; [discriminate|]. intros [[e [X _]] _]. discriminate.
    - intros e X. discriminate. }
  destruct (request_exception env e) eqn:RE; cbn -[append request_exception].
  2:{ eexists _, _. split; [reflexivity|]. cbn. split.
      - split; [discriminate|]. intros [[e' [X Y]] _]. injection X as <-. congruence.
      - intros e' _ _. auto. }
  destruct (Api.supabase env) eqn:S; cbn -[append request_exception].
  2:{ eexists _, _. split; [reflexivity|]. cbn. split.
      - split; [|reflexivity]. intros _. split; [exists e; auto|auto].
      - intros e' X Y. injection X as <-. congruence. }
  destruct (store env (collectible_by_id collectible_id)) as [[|r rest]|msg] eqn:Q;
    cbn -[append request_exception].
  - eexists _, _. split; [reflexivity|]. cbn. split.
    + split; [|reflexivity]. intros _. split; [exists e; auto|auto].
    + intros e' X Y. injection X as <-. congruence.
  - eexists _, _. split; [reflexivity|]. cbn. split.
    + split; [discriminate|]. intros [_ [X|X]]; discriminate.
    + intros e' X Y. injection X as <-. congruence.
  - eexists _, _. split; [reflexivity|]. cbn. split.
    + split; [discriminate|]. intros [_ [X|X]]; discriminate.
    + intros e' X Y. injection X as <-. congruence.
Qed.

(** ** All collectibles *)

(** X21. [get_collectibles] always answers, and the store comes first:
    when the client is there and the store answers, its rows are the
    response, with status 200, also when there are none, and the
    external API is not called.  Otherwise the external API is asked
    for [/api/collectibles] and its JSON is passed on.  The status is
    500, with the empty list as body, exactly when both have failed. *)
Theorem collectibles_fail_only_when_both_fail (env : Env) (tr : Trace) :
  exists resp tr',
    get_collectibles env tr = (Done resp, tr') /\
    (forall rows,
        Api.supabase env = true -> store env collectibles_query = data rows ->
        resp = mkResponse (JList (map JDict rows)) 200 /\
        requested tr' = requested tr) /\
    ((Api.supabase env = false \/ exists msg, store env collectibles_query = refused msg) ->
     resp = match fst (external_get "/api/collectibles" env no_trace) with
            | Done j => mkResponse j 200
            | Raised _ => mkResponse (JList []) 500
            end) /\
    (Api.status resp = 500 <->
     (Api.supabase env = false \/ exists msg, store env collectibles_query = refused msg) /\
     exists e, fst (external_get "/api/collectibles" env no_trace) = Raised e).
Proof.
  route_unfold. cbn -[external_get append show_len].
  destruct (Api.supabase env) eqn:S; cbn -[external_get append show_len].
  - destruct (store env collectibles_query) as [rows|msg] eqn:Q;
      cbn -[external_get append show_len].
    + eexists _, _. split; [reflexivity|]. split; [|split].
      * intros rows' _ X. injection X as <-. split; reflexivity.
      * intros [X|[msg X]]; discriminate.
      * cbn. split; [discriminate|]. intros [[X|[msg X]] _]; discriminate.
    + frame_external.
      destruct (external_get "/api/collectibles" env no_trace) as [[j|e] t0];
        cbn -[append show_len]; eexists _, _; (split; [reflexivity|]);
        (split; [intros rows _ X; discriminate|]); (split; [reflexivity|]); cbn.
      * split; [discriminate|]. intros [_ [e X]]. discriminate.
      * split; [|reflexivity]. intros _. split; [right; exists msg; reflexivity|].
        exists e. reflexivity.
  - frame_external.
    destruct (external_get "/api/collectibles" env no_trace) as [[j|e] t0];
      cbn -[append show_len]; eexists _, _; (split; [reflexivity|]);
      (split; [intros rows X; discriminate|]); (split; [reflexivity|]); cbn.
    + split; [discriminate|]. intros [_ [e X]]. discriminate.
    + split; [|reflexivity]. intros _. split; [left; reflexivity|].
      exists e. reflexivity.
Qed.

(** ** The price history *)

Lemma for_each_cons {A B} (f : A -> H B) (a : A) (l : list A) (env : Env) (tr : Trace) :
  for_each f (a :: l) env tr =
  match f a env tr with
  | (Done b, tr') =>
      match for_each f l env tr' with
      | (Done bs, tr'') => (Done (b :: bs), tr'')
      | (Raised e, tr'') => (Raised e, tr'')
      end
  | (Raised e, tr') => (Raised e, tr')
  end.
Proof.
  cbn [for_each]. unfold then_, pure.
  destruct (f a env tr) as [[b|e] tr']; [|reflexivity].
  destruct (for_each f l env tr') as [[bs|e] tr'']; reflexivity.
Qed.

Lemma price_point_cases (r : Dict) (env : Env) (tr : Trace) :
  (exists p, is_price_point r p /\ price_point r env tr = (Done p, tr)) \/
  (exists k, lacks_price r /\ price_point r env tr = (Raised (KeyError k), tr)).
Proof.
  unfold price_point, item, then_, pure, throw, is_price_point, lacks_price.
  destruct (dict_get "timestamp" r) as [t|] eqn:T.
  2:{ right. exists "timestamp". auto. }
  destruct (dict_get "avg_price_with_shipping" r) as [a|] eqn:A.
  2:{ right. exists "avg_price_with_shipping". auto. }
  left. eexists. split; [|reflexivity]. exists t, a. auto.
Qed.

(** The loop over the records: all the points, or the error of the
    first record that lacks a key; the trace is not touched. *)
Lemma for_each_price_point (rows : list Dict) (env : Env) (tr : Trace) :
  (exists points,
      for_each price_point rows env tr = (Done points, tr) /\
      Forall2 is_price_point rows points) \/
  (exists k,
      for_each price_point rows env tr = (Raised (KeyError k), tr) /\
      exists r, In r rows /\ lacks_price r).
Proof.
  induction rows as [|r rows IH].
  - left. exists []. split; [reflexivity|constructor].
  - rewrite !for_each_cons.
    destruct (price_point_cases r env tr) as [[p [P E]]|[k [N E]]]; rewrite E.
    2:{ right. exists k. split; [reflexivity|]. exists r. split; [left; reflexivity|exact N]. }
    destruct IH as [[points [E' F]]|[k [E' [r0 [Hin Hr]]]]]; rewrite E'.
    + left. eexists. split; [reflexivity|]. constructor; assumption.
    + right. exists k. split; [reflexivity|]. exists r0. split; [right; exact Hin|exact Hr].
Qed.

Lemma price_points_have_prices (rows : list Dict) (points : list Json) (r : Dict) :
  Forall2 is_price_point rows points -> In r rows -> ~ lacks_price r.
Proof.
  intros F. induction F as [|a b la lb [t [v [T [A _]]]] _ IH].
  - intros [].
  - intros [<-|Hi]; [|auto]. intros [N|N]; congruence.
Qed.

(** X22. [get_secure_price_history] never raises and never reports an
    error: whatever the external API and the store do, it answers with
    status 200 and a JSON list. *)
Theorem price_history_always_answers_a_list
    (collectible_id table_name : string) (env : Env) (tr : Trace) :
  exists l tr',
    get_secure_price_history collectible_id table_name env tr
    = (Done (mkResponse (JList l) 200), tr').
Proof.
  route_unfold. cbn -[external_get append show_len for_each].
  destruct (external_get _ env tr) as [[j|e] t0];
    cbn -[external_get append show_len for_each];
    [destruct j as [| | | | |[|x l]|]; cbn -[append show_len for_each];
     [| | | | | |eexists _, _; reflexivity|]|];
    (destruct (Api.supabase env); cbn -[append show_len for_each];
     [|eexists _, _; reflexivity]);
    (destruct (store env (price_history_of table_name)) as [[|r rows]|msg];
     cbn -[append show_len for_each];
     [eexists _, _; reflexivity| |eexists _, _; reflexivity]);
    match goal with
    | |- context [for_each price_point ?rs ?en ?t] =>
        destruct (for_each_price_point rs en t)
          as [[points [E _]]|[k [E _]]]; rewrite E
    end;
    cbn -[append show_len]; eexists _, _; reflexivity.
Qed.

(** X23. When the external API gives no list with something in it,
    the client is there and the store answers, the chart of
    [get_secure_price_history] is made of the store's records, one
    point a record and in their order: the record's [timestamp] as
    [timestamp] and [created_at], its [avg_price_with_shipping] as
    [price] and [avg_price_with_shipping], and its [total_listings], or
    0 when it has none, as [volume].  One record without [timestamp] or
    without [avg_price_with_shipping] empties the whole chart. *)
Theorem price_history_from_the_store
    (collectible_id table_name : string) (env : Env) (tr : Trace)
    (rows : list Dict) :
  (forall x l,
      fst (external_get ("/api/price-history/" ++ collectible_id ++ "/" ++ table_name)
             env no_trace)
      <> Done (JList (x :: l))) ->
  Api.supabase env = true ->
  store env (price_history_of table_name) = data rows ->
  exists points tr',
    get_secure_price_history collectible_id table_name env tr
    = (Done (mkResponse (JList points) 200), tr') /\
    ((forall r, In r rows -> ~ lacks_price r) ->
     Forall2 is_price_point rows points) /\
    ((exists r, In r rows /\ lacks_price r) -> points = []).
Proof.
  intros X S Q.
  route_unfold. cbn -[external_get append show_len for_each]. frame_external.
  destruct (external_get _ env no_trace) as [[j|e] t0];
    cbn -[append show_len for_each] in *;
    [destruct j as [| | | | |[|x l]|]; cbn -[append show_len for_each];
     [| | | | | |exfalso; exact (X x l eq_refl)|]|];
    rewrite S; cbn -[append show_len for_each];
    rewrite Q; cbn -[append show_len for_each];
    (destruct rows as [|r rs]; cbn -[append show_len for_each];
     [eexists _, _; split; [reflexivity|]; split; [constructor|reflexivity]|]);
    match goal with
    | |- context [for_each price_point ?l ?en ?t] =>
        destruct (for_each_price_point l en t)
          as [[pts [E F]]|[k [E [r0 [Hin Hr]]]]]; rewrite E
    end;
    cbn -[append show_len]; eexists _, _; (split; [reflexivity|]);
    first
      [ split; [intros _; exact F|];
        intros [r1 [Hin1 Hr1]]; exfalso;
        exact (price_points_have_prices _ _ _ F Hin1 Hr1)
      | split; [|reflexivity];
        intros A; exfalso; exact (A r0 Hin Hr) ].
Qed.

(** ** The secure assets route *)

Lemma asset_entry_cases (a : Dict) (env : Env) (tr : Trace) :
  (exists p, is_asset_entry a p /\ asset_entry a env tr = (Done p, tr)) \/
  (exists k, asset_entry a env tr = (Raised (KeyError k), tr)).
Proof.
  unfold asset_entry, item, then_, pure, throw, is_asset_entry.
  destruct (dict_get "asset_id" a) as [v1|] eqn:E1; [|right; eexists; reflexivity].
  destruct (dict_get "quantity" a) as [v2|] eqn:E2; [|right; eexists; reflexivity].
  destruct (dict_get "current_price" a) as [v3|] eqn:E3; [|right; eexists; reflexivity].
  destruct (dict_get "user_price" a) as [v4|] eqn:E4; [|right; eexists; reflexivity].
  destruct (dict_get "updated_at" a) as [v5|] eqn:E5; [|right; eexists; reflexivity].
  left. eexists. split; [|reflexivity]. exists v1, v2, v3, v4, v5. auto 10.
Qed.

Lemma for_each_asset_entry (rows : list Dict) (env : Env) (tr : Trace) :
  (exists entries,
      for_each asset_entry rows env tr = (Done entries, tr) /\
      Forall2 is_asset_entry rows entries) \/
  (exists k, for_each asset_entry rows env tr = (Raised (KeyError k), tr)).
Proof.
  induction rows as [|r rows IH].
  - left. exists []. split; [reflexivity|constructor].
  - rewrite !for_each_cons.
    destruct (asset_entry_cases r env tr) as [[p [P E]]|[k E]]; rewrite E.
    2:{ right. exists k. reflexivity. }
    destruct IH as [[entries [E' F]]|[k E']]; rewrite E'.
    + left. eexists. split; [reflexivity|]. constructor; assumption.
    + right. exists k. reflexivity.
Qed.

(** X24. [get_secure_user_assets] always answers, in one of two ways.
    Either the client is there, the store has given the user and at
    least one asset, every asset row has its five columns, and the
    answer is the list of the entries made of those rows, in order, with
    status 200 and without a call of the external API.  Or the answer
    is what the external API gives for [/api/user/assets/<username>]:
    its JSON with status 200, or the empty list with status 500 when
    that call fails. *)
Theorem secure_assets_answer (username : string) (env : Env) (tr : Trace) :
  exists resp tr',
    get_secure_user_assets username env tr = (Done resp, tr') /\
    ((exists u us uid a rows entries,
         Api.supabase env = true /\
         store env (users_by_name username) = data (u :: us) /\
         dict_get "id" u = Some uid /\
         store env (secure_assets_of uid) = data (a :: rows) /\
         Forall2 is_asset_entry (a :: rows) entries /\
         resp = mkResponse (JList entries) 200 /\
         requested tr' = requested tr) \/
     resp = match fst (external_get ("/api/user/assets/" ++ username) env no_trace) with
            | Done j => mkResponse j 200
            | Raised _ => mkResponse (JList []) 500
            end).
Proof.
  route_unfold. unfold get_secure_user_assets, Api.get_supabase_client.
  route_unfold. cbn -[external_get append show_len for_each].
  destruct (Api.supabase env) eqn:S; cbn -[external_get append show_len for_each].
  2:{ frame_external.
      destruct (external_get _ env no_trace) as [[j|e] t0];
        cbn -[append]; eexists _, _; (split; [reflexivity|]); right; reflexivity. }
  destruct (store env (users_by_name username)) as [[|u us]|msg] eqn:U;
    cbn -[external_get append show_len for_each].
  1,3: frame_external;
    destruct (external_get _ env no_trace) as [[j|e] t0];
    cbn -[append]; eexists _, _; (split; [reflexivity|]); right; reflexivity.
  destruct (dict_get "id" u) as [uid|] eqn:I;
    cbn -[external_get append show_len for_each].
  2:{ frame_external.
      destruct (external_get _ env no_trace) as [[j|e] t0];
        cbn -[append]; eexists _, _; (split; [reflexivity|]); right; reflexivity. }
  destruct (store env (secure_assets_of uid)) as [[|a rows]|msg] eqn:A;
    cbn -[external_get append show_len for_each].
  1,3: frame_external;
    destruct (external_get _ env no_trace) as [[j|e] t0];
    cbn -[append]; eexists _, _; (split; [reflexivity|]); right; reflexivity.
  match goal with
  | |- context [for_each asset_entry ?l ?en ?t] =>
      destruct (for_each_asset_entry l en t) as [[entries [E F]]|[k E]]; rewrite E
  end; cbn -[external_get append show_len].
  - eexists _, _. split; [reflexivity|]. left.
    exists u, us, uid, a, rows, entries. repeat split; auto.
  - frame_external.
    destruct (external_get _ env no_trace) as [[j|e] t0];
      cbn -[append]; eexists _, _; (split; [reflexivity|]); right; reflexivity.
Qed.

(** X25. In [get_secure_user_assets] an error of the store is followed
    by the call of the external API: when the store refuses the query
    for the user, the answer is the external API's. *)
Theorem secure_assets_store_error_falls_back
    (username msg : string) (env : Env) (tr : Trace) :
  Api.supabase env = true ->
  store env (users_by_name username) = refused msg ->
  fst (get_secure_user_assets username env tr)
  = Done (match fst (external_get ("/api/user/assets/" ++ username) env no_trace) with
          | Done j => mkResponse j 200
          | Raised _ => mkResponse (JList []) 500
          end).
Proof.
  intros S U. unfold get_secure_user_assets. route_unfold.
  cbn -[external_get append show_len for_each]. rewrite S.
  cbn -[external_get append show_len for_each]. rewrite U.
  cbn -[external_get append show_len for_each]. frame_external.
  destruct (external_get _ env no_trace) as [[j|e] t0]; reflexivity.
Qed.

(** ** The market summary *)

Lemma market_summary_cases (r : Dict) (env : Env) (tr : Trace) :
  (exists j, market_summary r env tr = (Done j, tr)) \/
  (exists k, market_summary r env tr = (Raised (KeyError k), tr)).
Proof.
  unfold market_summary, item, then_, pure, throw.
  destruct (dict_get "timestamp" r); [|right; eexists; reflexivity].
  destruct (dict_get "avg_price_with_shipping" r); [|right; eexists; reflexivity].
  left. eexists. reflexivity.
Qed.

(** X26. [get_secure_market_summary] never raises and always answers
    with status 200, also when what it answers is an error: a missing
    client, an error of the store, an empty table and a record without
    [timestamp] are all reported in the body of a response whose status
    is 200. *)
Theorem market_summary_always_answers_200
    (collectible_id table_name : string) (env : Env) (tr : Trace) :
  exists b tr',
    get_secure_market_summary collectible_id table_name env tr
    = (Done (mkResponse b 200), tr') /\
    ((forall j, fst (external_get
                       ("/api/market-summary/" ++ collectible_id ++ "/" ++ table_name)
                       env no_trace) = Done j -> truthy j = false) ->
     (Api.supabase env = false -> b = error_body "Database unavailable") /\
     (Api.supabase env = true ->
      (forall msg, store env (market_summary_of table_name) = refused msg ->
                   b = error_body "Failed to fetch market summary") /\
      (store env (market_summary_of table_name) = data [] ->
       b = error_body "No market summary data found") /\
      (forall r rest,
          store env (market_summary_of table_name) = data (r :: rest) ->
          dict_get "timestamp" r = None ->
          b = error_body "Failed to fetch market summary"))).
Proof.
  unfold get_secure_market_summary. route_unfold.
  cbn -[external_get append market_summary truthy market_summary_table].
  frame_external.
  destruct (external_get _ env no_trace) as [[j|e] t0];
    cbn -[append market_summary truthy market_summary_table].
  - destruct (truthy j) eqn:T; cbn -[append market_summary truthy market_summary_table].
    { eexists _, _. split; [reflexivity|]. intros X. specialize (X j eq_refl).
      congruence. }
    destruct (Api.supabase env) eqn:S;
      cbn -[append market_summary truthy market_summary_table].
    2:{ eexists _, _. split; [reflexivity|]. intros _.
        split; [reflexivity|discriminate]. }
    destruct (store env (market_summary_of table_name)) as [[|r rest]|msg] eqn:Q;
      cbn -[append market_summary truthy market_summary_table].
    + eexists _, _. split; [reflexivity|]. intros _. split; [discriminate|].
      intros _. split; [discriminate|]. split; [reflexivity|discriminate].
    + match goal with
      | |- context [market_summary r ?en ?t] =>
          destruct (market_summary_cases r en t) as [[v E]|[k E]];
          pose proof E as E0; rewrite E
      end; cbn -[append market_summary truthy market_summary_table];
        eexists _, _; (split; [reflexivity|]); intros _; (split; [discriminate|]);
        intros _; (split; [discriminate|]); (split; [discriminate|]);
        intros r' rest' X N; injection X as <- <-.
      * unfold market_summary, item, then_, pure, throw in E0. rewrite N in E0.
        discriminate.
      * reflexivity.
    + eexists _, _. split; [reflexivity|]. intros _. split; [discriminate|].
      intros _. split; [reflexivity|]. split; discriminate.
  - destruct (Api.supabase env) eqn:S;
      cbn -[append market_summary truthy market_summary_table].
    2:{ eexists _, _. split; [reflexivity|]. intros _.
        split; [reflexivity|discriminate]. }
    destruct (store env (market_summary_of table_name)) as [[|r rest]|msg] eqn:Q;
      cbn -[append market_summary truthy market_summary_table].
    + eexists _, _. split; [reflexivity|]. intros _. split; [discriminate|].
      intros _. split; [discriminate|]. split; [reflexivity|discriminate].
    + match goal with
      | |- context [market_summary r ?en ?t] =>
          destruct (market_summary_cases r en t) as [[v E]|[k E]];
          pose proof E as E0; rewrite E
      end; cbn -[append market_summary truthy market_summary_table];
        eexists _, _; (split; [reflexivity|]); intros _; (split; [discriminate|]);
        intros _; (split; [discriminate|]); (split; [discriminate|]);
        intros r' rest' X N; injection X as <- <-.
      * unfold market_summary, item, then_, pure, throw in E0. rewrite N in E0.
        discriminate.
      * reflexivity.
    + eexists _, _. split; [reflexivity|]. intros _. split; [discriminate|].
      intros _. split; [reflexivity|]. split; discriminate.
Qed.

Lemma append_nil_r (s : string) : (s ++ "")%string = s.
Proof. induction s as [|c s IH]; [reflexivity|]. cbn. rewrite IH. reflexivity. Qed.

Lemma starts_with_refl (s : string) : starts_with s s = true.
Proof.
  induction s as [|c s IH]; [reflexivity|]. cbn. rewrite Ascii.eqb_refl. exact IH.
Qed.

Lemma replace_from_skipped (old new : string) (k : nat) (s : string) :
  (String.length s <= k)%nat -> replace_from old new k s = "".
Proof.
  revert k. induction s as [|c s IH]; intros k L; [reflexivity|].
  destruct k as [|k]; [cbn in L; lia|]. cbn. apply IH. cbn in L. lia.
Qed.

Lemma replace_absent (old new s : string) :
  starts_inside old s "" = false -> py_replace old new s = s.
Proof.
  unfold py_replace. induction s as [|c s IH]; [reflexivity|].
  cbn [starts_inside replace_from]. rewrite append_nil_r.
  intros N. apply orb_false_iff in N. destruct N as [N1 N2].
  rewrite N1, (IH N2). reflexivity.
Qed.

Lemma replace_at_end (old new p : string) :
  old <> "" ->
  starts_inside old p old = false ->
  py_replace old new (p ++ old) = (p ++ new)%string.
Proof.
  intros O. unfold py_replace. induction p as [|c p IH].
  - intros _. cbn [append]. destruct old as [|a o]; [contradiction|].
    cbn [replace_from]. rewrite starts_with_refl.
    rewrite replace_from_skipped; [apply append_nil_r|]. cbn. lia.
  - cbn [starts_inside]. intros N. apply orb_false_iff in N. destruct N as [N1 N2].
    cbn [append replace_from]. cbn [append] in N1. rewrite N1, (IH N2). reflexivity.
Qed.

(** X27. The table [get_secure_market_summary] reads is the name it is
    given with every [_price_history] replaced by [_market_summary].  A
    name that ends in [_price_history], with no [_price_history]
    starting earlier, gives the name with that ending replaced; a name
    in which [_price_history] does not occur is read as it is, so the
    summary is then looked for in the very table that was named. *)
Theorem market_summary_table_name (p : string) :
  (starts_inside "_price_history" p "_price_history" = false ->
   market_summary_table (p ++ "_price_history") = (p ++ "_market_summary")%string) /\
  (starts_inside "_price_history" p "" = false -> market_summary_table p = p).
Proof.
  split.
  - apply replace_at_end. discriminate.
  - apply replace_absent.
Qed.

(** ** The statements at the environments of the examples *)

Lemma verify_vrno_api_key_accepts_iff_witness :
  VRNO_API_KEY example_env = Some "secret-key-0123456789" /\
  VRNO_API_KEY keyless_env = None /\
  fst (verify_vrno_api_key (one_header "x-api-key" "secret-key-0123456789")
         example_env no_trace) = Done true /\
  fst (verify_vrno_api_key (fun _ => None) keyless_env no_trace) = Done true.
Proof.
  split; [reflexivity|]. split; [reflexivity|].
  destruct (verify_vrno_api_key_accepts_iff
              (one_header "x-api-key" "secret-key-0123456789") example_env no_trace)
    as [ok [tr' [E [_ [_ [K _]]]]]].
  destruct (verify_vrno_api_key_accepts_iff (fun _ => None) keyless_env no_trace)
    as [ok0 [tr0 [E0 [_ [_ [_ N]]]]]].
  rewrite E, E0. cbn [fst]. split.
  - f_equal. apply (K "secret-key-0123456789" eq_refl). right. split; [left|]; reflexivity.
  - f_equal. apply (N eq_refl). split; [left|]; reflexivity.
Defined.

Lemma verify_vrno_api_key_logs_ten_characters_witness :
  substring 0 10 "secret-keyAAAA" = substring 0 10 "secret-keyBBBBBBBB" /\
  snd (verify_vrno_api_key (one_header "vrno-api-key" "secret-keyAAAA")
         example_env no_trace)
  = snd (verify_vrno_api_key (one_header "vrno-api-key" "secret-keyBBBBBBBB")
           example_env no_trace).
Proof.
  split; [reflexivity|].
  apply (verify_vrno_api_key_logs_ten_characters
           (one_header "vrno-api-key" "secret-keyAAAA")
           (one_header "vrno-api-key" "secret-keyBBBBBBBB")
           "secret-keyAAAA" "secret-keyBBBBBBBB" example_env no_trace);
    try reflexivity; discriminate.
Defined.

Lemma unsupported_method_sends_nothing_witness :
  "get" <> "GET" /\
  make_external_api_request "/api/prices" "get" None [] example_env no_trace
  = (Raised (ValueError "Unsupported HTTP method: get"), no_trace).
Proof.
  split; [discriminate|].
  apply (unsupported_method_sends_nothing "/api/prices" "get" None [] example_env
           no_trace); discriminate.
Defined.

Lemma balance_comes_from_supabase_when_present_witness :
  Api.supabase example_env = true /\
  store example_env (users_by_name "alice") = data [[("id", JInt 7)]] /\
  store example_env (balance_of (JInt 7)) = data [[("balance", JInt 120)]] /\
  exists tr',
    get_user_balance "alice" example_env no_trace
    = (Done (mkResponse
               (JDict [("balance", JInt 120); ("user_id", JInt 7);
                       ("username", JStr "alice")]) 200), tr') /\
    requested tr' = requested no_trace.
Proof.
  split; [reflexivity|]. split; [reflexivity|]. split; [reflexivity|].
  apply (balance_comes_from_supabase_when_present "alice" example_env no_trace
           [("id", JInt 7)] [("balance", JInt 120)] [] [] (JInt 7) (JInt 120));
    reflexivity.
Defined.

Lemma balance_store_error_is_final_witness :
  Api.supabase refused_env = true /\
  store refused_env (users_by_name "alice") = refused "connection reset" /\
  exists tr',
    get_user_balance "alice" refused_env no_trace
    = (Done (mkResponse (JDict [("error", JStr "Failed to fetch balance")]) 500), tr') /\
    requested tr' = requested no_trace.
Proof.
  split; [reflexivity|]. split; [reflexivity|].
  apply (balance_store_error_is_final "alice" "connection reset" refused_env no_trace
           eq_refl).
  left. reflexivity.
Defined.

Lemma balance_falls_back_to_the_external_api_witness :
  Api.supabase external_only_env = false /\
  fst (get_user_balance "alice" external_only_env no_trace)
  = Done (mkResponse (JDict [("balance", JInt 5)]) 200).
Proof.
  split; [reflexivity|].
  rewrite (balance_falls_back_to_the_external_api "alice" external_only_env no_trace
             (or_introl eq_refl)).
  reflexivity.
Defined.

Lemma secure_collectible_prefers_the_external_api_witness :
  fst (external_get ("/api/collectible/" ++ "genesect") external_only_env no_trace)
  = Done (JDict [("balance", JInt 5)]) /\
  exists tr',
    get_secure_collectible "genesect" external_only_env no_trace
    = (Done (mkResponse (JDict [("balance", JInt 5)]) 200), tr') /\
    queried tr' = queried no_trace.
Proof.
  split; [reflexivity|].
  apply (secure_collectible_prefers_the_external_api "genesect" external_only_env
           no_trace (JDict [("balance", JInt 5)])).
  reflexivity.
Defined.

Lemma price_history_from_the_store_witness :
  Api.supabase example_env = true /\
  store example_env (price_history_of "ebay_genesect_price_history")
  = data [[("timestamp", JStr "2025-01-01T00:00:00");
           ("avg_price_with_shipping", JInt 42)]] /\
  exists points tr',
    get_secure_price_history "genesect" "ebay_genesect_price_history" example_env
      no_trace
    = (Done (mkResponse (JList points) 200), tr') /\
    Forall2 is_price_point
      [[("timestamp", JStr "2025-01-01T00:00:00");
        ("avg_price_with_shipping", JInt 42)]] points.
Proof.
  split; [reflexivity|]. split; [reflexivity|].
  destruct (price_history_from_the_store "genesect" "ebay_genesect_price_history"
              example_env no_trace
              [[("timestamp", JStr "2025-01-01T00:00:00");
                ("avg_price_with_shipping", JInt 42)]])
    as [points [tr' [E [P _]]]].
  - intros x l. discriminate.
  - reflexivity.
  - reflexivity.
  - exists points, tr'. split; [exact E|]. apply P.
    intros r [<-|[]] [N|N]; discriminate.
Defined.

Lemma secure_assets_store_error_falls_back_witness :
  Api.supabase refused_env = true /\
  store refused_env (users_by_name "alice") = refused "connection reset" /\
  fst (get_secure_user_assets "alice" refused_env no_trace)
  = Done (mkResponse (JList []) 500).
Proof.
  split; [reflexivity|]. split; [reflexivity|].
  rewrite (secure_assets_store_error_falls_back "alice" "connection reset"
             refused_env no_trace eq_refl eq_refl).
  reflexivity.
Defined.

Lemma market_summary_always_answers_200_witness :
  Api.supabase example_env = true /\
  exists b tr',
    get_secure_market_summary "genesect" "ebay_genesect_price_history" example_env
      no_trace
    = (Done (mkResponse b 200), tr') /\
    b = error_body "Failed to fetch market summary".
Proof.
  split; [reflexivity|].
  destruct (market_summary_always_answers_200 "genesect"
              "ebay_genesect_price_history" example_env no_trace)
    as [b [tr' [E K]]].
  exists b, tr'. split; [exact E|].
  assert (X : forall j,
             fst (external_get
                    ("/api/market-summary/" ++ "genesect" ++ "/"
                     ++ "ebay_genesect_price_history") example_env no_trace)
             = Done j -> truthy j = false).
  { intros j D. discriminate. }
  destruct (K X) as [_ K2]. destruct (K2 eq_refl) as [K3 _].
  apply (K3 "relation does not exist"). reflexivity.
Defined.

Lemma market_summary_table_name_witness :
  starts_inside "_price_history" "ebay_genesect" "_price_history" = false /\
  starts_inside "_price_history" "ebay_genesect_market_summary" "" = false /\
  market_summary_table "ebay_genesect_price_history" = "ebay_genesect_market_summary" /\
  market_summary_table "ebay_genesect_market_summary" = "ebay_genesect_market_summary".
Proof.
  split; [reflexivity|]. split; [reflexivity|]. split.
  - apply (proj1 (market_summary_table_name "ebay_genesect")). reflexivity.
  - apply (proj2 (market_summary_table_name "ebay_genesect_market_summary")).
    reflexivity.
Defined.
